(** * Lottery bot: ticket store, draw coordination, audit logging, translations

    A shallow embedding of the Python lottery bot ([bot.py],
    [handlers/start.py], [utils/language.py], [utils/logger.py]).  The
    persistence module [src/database/db.py] and [src/commands/utils.py]
    (draw lock, [parse_int_safe], [is_admin]) are not part of the sources;
    their operations are modelled from the specification and say so. *)

From Stdlib Require Import ZArith String Ascii List Bool.
From stdpp Require Import base gmap list strings sorting pretty.

Open Scope Z_scope.

(* ================================================================== *)
(** ** Python-style results and exceptions *)

Inductive exn :=
| KeyError (k : string)
| IndexError
| ValueError (msg : string)
| OSError (msg : string)
| OtherError (msg : string)
(** a [BaseException] that is not an [Exception] (e.g. CancelledError) *)
| BaseExc (name : string).

(** [except Exception] catches everything but the [BaseExc] family. *)
Definition is_exception (e : exn) : bool :=
  match e with BaseExc _ => false | _ => true end.

Inductive result (A : Type) :=
| Ok (a : A)
| Err (e : exn).
Arguments Ok {A} a.
Arguments Err {A} e.

Definition bind {A B} (m : result A) (f : A -> result B) : result B :=
  match m with Ok a => f a | Err e => Err e end.

Notation "'let!' x := m 'in' k" := (bind m (fun x => k))
  (at level 200, x name, m at level 100, k at level 200).

(** [try: m except Exception as e: h e] *)
Definition try_except {A} (m : result A) (h : exn -> result A) : result A :=
  match m with
  | Ok a => Ok a
  | Err e => if is_exception e then h e else Err e
  end.

(* ================================================================== *)
(** ** Tickets and the ticket store *)

Inductive ticket_status := Active | Rejected.

#[global] Instance ticket_status_eq_dec : EqDecision ticket_status.
Proof. solve_decision. Defined.

Definition status_eqb (a b : ticket_status) : bool :=
  match a, b with
  | Active, Active | Rejected, Rejected => true
  | _, _ => false
  end.

Record ticket := mk_ticket {
  ticket_number : Z;
  user_id : Z;
  username : option string;
  file_id : string;
  status : ticket_status;
  status_reason : option string
}.

(** The persistent store: the tickets table keyed by ticket number and
    the global counter, holding the last ticket number issued. *)
Record db := mk_db {
  tickets : gmap Z ticket;
  counter : Z
}.

Definition empty_db : db := mk_db ∅ 0.

(** Modelled from the spec: [get_next_ticket_number] of the missing
    [src/database/db.py] ("returns the next unused ticket number and durably
    advances the counter"). *)
Definition get_next_ticket_number (d : db) : Z * db :=
  (counter d + 1, mk_db (tickets d) (counter d + 1)).

(** Modelled from the spec: [add_ticket] of the missing [db.py] ("inserts a
    new ticket with status active"; its number comes from
    [get_next_ticket_number]). *)
Definition add_ticket (n uid : Z) (uname : option string) (fid : string)
    (d : db) : db :=
  mk_db (<[n := mk_ticket n uid uname fid Active None]> (tickets d)) (counter d).

(** Modelled from the spec: [get_active_ticket_by_number] of the missing
    [db.py] (the ticket only if its status is active). *)
Definition get_active_ticket_by_number (n : Z) (d : db) : option ticket :=
  match tickets d !! n with
  | Some t => if status_eqb (status t) Active then Some t else None
  | None => None
  end.

(** Modelled from the spec: [get_ticket_by_number_any_status] of the
    missing [db.py]. *)
Definition get_ticket_by_number_any_status (n : Z) (d : db) : option ticket :=
  tickets d !! n.

Definition with_status (t : ticket) (st : ticket_status) (reason : option string) : ticket :=
  mk_ticket (ticket_number t) (user_id t) (username t) (file_id t) st reason.

(** Modelled from the spec: [set_ticket_status] of the missing [db.py]
    ("applies the forward-only transition ... must reject (no-op, report
    failure) attempts to move a ticket out of rejected"; [NotFound] for an
    absent ticket). *)
Definition set_ticket_status (n : Z) (st : ticket_status) (reason : option string)
    (d : db) : bool * db :=
  match tickets d !! n with
  | None => (false, d)
  | Some t =>
      match status t, st with
      | Rejected, Active => (false, d)
      | _, _ => (true, mk_db (<[n := with_status t st reason]> (tickets d)) (counter d))
      end
  end.

(** Modelled from the spec: [get_active_tickets_by_user] of the missing
    [db.py] (the numbers of the user's active tickets, ascending); the rows
    of the table are read in key order and sorted by ticket number. *)
Definition get_active_tickets_by_user (uid : Z) (d : db) : list Z :=
  merge_sort Z.le
    (fst <$> filter (fun kt : Z * ticket =>
                       (user_id kt.2 = uid) /\ status kt.2 = Active)
                    (map_to_list (tickets d))).

(** Modelled from the spec: [archive_lottery] of the missing [db.py]
    ("removes all tickets (active and rejected) from the live working set,
    preserving the global ticket-number counter"). *)
Definition archive_lottery (d : db) : db := mk_db ∅ (counter d).

(* ================================================================== *)
(** ** Helpers of [src/commands/utils.py] *)

(** Modelled from the spec: [is_admin] of the missing
    [src/commands/utils.py] ("an externally-supplied predicate over a user
    identifier": membership in the configured administrator ids). *)
Definition is_admin (uid : Z) (admin_ids : list Z) : bool :=
  existsb (Z.eqb uid) admin_ids.

Definition digit_value (c : ascii) : option Z :=
  let k := nat_of_ascii c in
  if (48 <=? k)%nat && (k <=? 57)%nat then Some (Z.of_nat (k - 48)) else None.

Fixpoint all_digits (s : string) : bool :=
  match s with
  | EmptyString => true
  | String c s' => if digit_value c then all_digits s' else false
  end.

(** A decimal integer: an optional sign followed by one or more digits. *)
Definition is_decimal_integer (s : string) : bool :=
  match s with
  | String c r =>
      if (Ascii.eqb c "-" || Ascii.eqb c "+")%bool
      then match r with EmptyString => false | _ => all_digits r end
      else all_digits s
  | EmptyString => false
  end.

Fixpoint parse_digits (s : string) (acc : Z) : option Z :=
  match s with
  | EmptyString => Some acc
  | String c s' =>
      match digit_value c with
      | Some v => parse_digits s' (acc * 10 + v)
      | None => None
      end
  end.

Definition parse_unsigned (s : string) : option Z :=
  match s with EmptyString => None | _ => parse_digits s 0 end.

(** Modelled from the spec: [parse_int_safe] of the missing
    [src/commands/utils.py] ("parse this payload defensively and treat a
    non-integer suffix as an error": [None] unless a decimal integer). *)
Definition parse_int_safe (s : string) : option Z :=
  match s with
  | String c r =>
      if Ascii.eqb c "-" then option_map Z.opp (parse_unsigned r)
      else if Ascii.eqb c "+" then parse_unsigned r
      else parse_unsigned s
  | EmptyString => None
  end.

(** [s.split(":", 1)[1]]: the text after the first colon ([IndexError]
    when there is none). *)
Fixpoint after_first_colon (s : string) : option string :=
  match s with
  | EmptyString => None
  | String c s' => if Ascii.eqb c ":" then Some s' else after_first_colon s'
  end.

(* ================================================================== *)
(** ** Request handlers of [bot.py] *)

Open Scope string_scope.

(** What a handler shows its caller: an alert or a message given by its
    translation key, the list of ticket buttons, a photo, or a literal
    fallback text of an [except] branch. *)
Inductive reply :=
| NoReply
| Alert (key : string)
| Notice (key : string)
| TicketList (nums : list Z)
| PhotoReply (fid : string) (key : string)
| Literal (msg : string).

(** The store operations a handler performs, in order. *)
Inductive db_call :=
| CallGetAnyStatus (n : Z)
| CallGetActive (n : Z)
| CallSetStatus (n : Z) (st : ticket_status)
| CallByUser (uid : Z)
| CallNextNumber
| CallAdd (n : Z)
| CallArchive.

Record outcome := mk_outcome {
  out_reply : reply;
  out_calls : list db_call;
  out_db : db
}.

(** [admin_confirm_winner] (bot.py:353-411), for a callback from [uid]
    carrying [data]. The announcement and the log call after the status
    write only send messages. *)
Definition admin_confirm_winner (admin_ids : list Z) (uid : Z) (data : string)
    (d : db) : outcome :=
  if negb (is_admin uid admin_ids) then mk_outcome (Alert "no_rights") [] d
  else if negb (String.prefix "confirm_win:" data) then mk_outcome NoReply [] d
  else
    match after_first_colon data with
    | None => mk_outcome (Literal "Error confirming winner") [] d
    | Some suffix =>
        match parse_int_safe suffix with
        | None => mk_outcome (Alert "incorrect_ticket_number") [] d
        | Some num =>
            match get_ticket_by_number_any_status num d with
            | Some t =>
                if status_eqb (status t) Active then
                  let d' := snd (set_ticket_status num Rejected None d) in
                  mk_outcome (Notice "winner_published")
                    [CallGetAnyStatus num; CallSetStatus num Rejected] d'
                else mk_outcome (Alert "ticket_unavailable") [CallGetAnyStatus num] d
            | None => mk_outcome (Alert "ticket_unavailable") [CallGetAnyStatus num] d
            end
        end
    end.

(** [user_view_ticket_callback] (bot.py:460-507). *)
Definition user_view_ticket_callback (uid : Z) (data : string) (d : db) : outcome :=
  if negb (String.prefix "view_ticket:" data) then
    mk_outcome (Alert "incorrect_request") [] d
  else
    match after_first_colon data with
    | None => mk_outcome (Literal "Error viewing ticket") [] d
    | Some suffix =>
        match parse_int_safe suffix with
        | None => mk_outcome (Alert "incorrect_ticket_number") [] d
        | Some num =>
            match get_active_ticket_by_number num d with
            | None => mk_outcome (Alert "ticket_not_found") [CallGetActive num] d
            | Some t =>
                if Z.eqb (user_id t) uid
                then mk_outcome (PhotoReply (file_id t) "your_ticket") [CallGetActive num] d
                else mk_outcome (Alert "no_access_ticket") [CallGetActive num] d
            end
        end
    end.

(** [handle_my_tickets] (bot.py:268-297): the ticket numbers [row[0]] of
    the user's active rows, or the "no tickets" text. *)
Definition handle_my_tickets (uid : Z) (d : db) : outcome :=
  let rows := get_active_tickets_by_user uid d in
  match rows with
  | [] => mk_outcome (Notice "no_tickets") [CallByUser uid] d
  | _ => mk_outcome (TicketList rows) [CallByUser uid] d
  end.

(** [max(message.photo, key=lambda p: p.file_size or 0)]: the first photo
    of greatest size. *)
Definition largest_photo (p : string * Z) (ps : list (string * Z)) : string * Z :=
  fold_left (fun best q => if Z.ltb best.2 q.2 then q else best) ps p.

(** [handle_upload_photo] (bot.py:197-265), in the waiting-for-photo
    state, for a message with the photo sizes [photos] (file id, size). *)
Definition handle_upload_photo (uid : Z) (uname : option string)
    (photos : list (string * Z)) (d : db) : outcome :=
  match photos with
  | [] => mk_outcome (Notice "send_photo_only") [] d
  | p :: ps =>
      let fid := (largest_photo p ps).1 in
      let (n, d1) := get_next_ticket_number d in
      let d2 := add_ticket n uid uname fid d1 in
      mk_outcome (Notice "photo_registered") [CallNextNumber; CallAdd n] d2
  end.

(** [admin_archive] (bot.py:510-536). *)
Definition admin_archive (admin_ids : list Z) (uid : Z) (d : db) : outcome :=
  if negb (is_admin uid admin_ids) then mk_outcome (Notice "insufficient_rights") [] d
  else mk_outcome (Notice "lottery_archived") [CallArchive] (archive_lottery d).

(** One request served by the bot, or a direct call of the store's
    [set_ticket_status]; a draw does not write the store. *)
Inductive bot_step : db -> db -> Prop :=
| step_upload uid uname photos d :
    bot_step d (out_db (handle_upload_photo uid uname photos d))
| step_confirm admin_ids uid data d :
    bot_step d (out_db (admin_confirm_winner admin_ids uid data d))
| step_view uid data d :
    bot_step d (out_db (user_view_ticket_callback uid data d))
| step_my_tickets uid d :
    bot_step d (out_db (handle_my_tickets uid d))
| step_archive admin_ids uid d :
    bot_step d (out_db (admin_archive admin_ids uid d))
| step_set_status n st reason d :
    bot_step d (snd (set_ticket_status n st reason d)).

Inductive reachable : db -> Prop :=
| reach_init : reachable empty_db
| reach_step d d' : reachable d -> bot_step d d' -> reachable d'.

(** Every stored ticket number has been issued by the counter. *)
Definition numbers_issued (d : db) : Prop :=
  forall n t, tickets d !! n = Some t -> n <= counter d.


(* ================================================================== *)
(** ** Draw coordination: [admin_start_draw] under asyncio scheduling *)

(** Modelled from the spec: [draw_lock] of the missing
    [src/commands/utils.py], a "single global mutual-exclusion flag" read
    through [draw_lock.locked].  What [async with draw_lock] does on a held
    lock is not fixed by the sources: the spec's lock is non-blocking (the
    acquisition fails at once, an exception), an [asyncio.Lock] queues the
    caller.  Both are modelled. *)
Inductive lock_kind :=
| NonBlockingLock
| QueueingLock.

Inductive draw_reply :=
| DrawInProgress      (* get_text(.., "draw_in_progress") *)
| DrawError           (* the except branch: "Error starting draw" *)
| DrawNoActive        (* get_text(.., "no_active_tickets") *)
| DrawResult (n : Z). (* the photo of ticket n with confirm/reject buttons *)

(** Where one [admin_start_draw] call by an administrator stands; the
    event loop switches tasks only at these suspension points. *)
Inductive draw_pc :=
| DStart               (* not yet scheduled *)
| DLogging             (* suspended in [await logger.log_admin_action(..)] *)
| DDrawing             (* inside [async with draw_lock], suspended in the
                          store query or in [answer_photo] *)
| DDone (r : draw_reply).

(** [async with draw_lock:] entered with the lock state [locked]: [None]
    when the task has to wait. *)
Definition draw_acquire (k : lock_kind) (locked : bool) : option (bool * draw_pc) :=
  if locked then
    match k with
    | NonBlockingLock => Some (locked, DDone DrawError)
    | QueueingLock => None
    end
  else Some (true, DDrawing).

(** Run one task up to its next suspension point.  [log_suspends] tells
    whether the audit call really suspends (it sends to the log channel
    when one is configured); [pick] is the ticket the store's random query
    returns. *)
Definition draw_task_step (k : lock_kind) (log_suspends : bool) (pick : option Z)
    (locked : bool) (pc : draw_pc) : option (bool * draw_pc) :=
  match pc with
  | DStart =>
      if locked then Some (locked, DDone DrawInProgress)
      else if log_suspends then Some (locked, DLogging)
      else draw_acquire k locked
  | DLogging => draw_acquire k locked
  | DDrawing =>
      Some (false, DDone (match pick with
                          | None => DrawNoActive
                          | Some n => DrawResult n
                          end))
  | DDone _ => None
  end.

(** Two concurrent draw requests and the lock. *)
Record draw_sys := mk_draw_sys {
  lock_held : bool;
  task_a : draw_pc;
  task_b : draw_pc
}.

Definition draw_init : draw_sys := mk_draw_sys false DStart DStart.

Inductive task := TaskA | TaskB.

Definition draw_sys_step (k : lock_kind) (log_suspends : bool)
    (tk : task * option Z) (s : draw_sys) : option draw_sys :=
  let '(which, pick) := tk in
  match which with
  | TaskA =>
      match draw_task_step k log_suspends pick (lock_held s) (task_a s) with
      | Some (l, pc) => Some (mk_draw_sys l pc (task_b s))
      | None => None
      end
  | TaskB =>
      match draw_task_step k log_suspends pick (lock_held s) (task_b s) with
      | Some (l, pc) => Some (mk_draw_sys l (task_a s) pc)
      | None => None
      end
  end.

(** Run a schedule; [None] when a scheduled task cannot run. *)
Fixpoint draw_run (k : lock_kind) (log_suspends : bool)
    (sched : list (task * option Z)) (s : draw_sys) : option draw_sys :=
  match sched with
  | [] => Some s
  | tk :: rest =>
      match draw_sys_step k log_suspends tk s with
      | Some s' => draw_run k log_suspends rest s'
      | None => None
      end
  end.

(* ================================================================== *)
(** ** Audit logging: [TelegramLogger] of [utils/logger.py] *)

(** The effects the logger relies on; [logging]'s own calls never raise
    (the logging module handles its handlers' errors itself). *)
Record log_env := mk_log_env {
  env_now : result string;                  (* datetime.now().strftime(..) *)
  env_send : Z -> string -> result unit     (* await bot.send_message(..) *)
}.

Record tg_user := mk_tg_user { tg_id : Z; tg_username : option string }.

(** Python truthiness of an optional string. *)
Definition truthy (o : option string) : option string :=
  match o with
  | Some s => if String.eqb s "" then None else Some s
  | None => None
  end.

(** [if self.log_channel_id:] *)
Definition channel_of (log_channel_id : option Z) : option Z :=
  match log_channel_id with
  | Some c => if Z.eqb c 0 then None else Some c
  | None => None
  end.

(** [log_user_action] (logger.py:44-99). *)
Definition log_user_action (env : log_env) (log_channel_id : option Z)
    (u : tg_user) (action : string) (language additional_info : option string)
    : result unit :=
  try_except
    (let! timestamp := env_now env in
     let uname := match truthy (tg_username u) with
                  | Some n => "@" ++ n
                  | None => "No username"
                  end in
     let log_message :=
       "User Action Log" ++ " User: " ++ uname ++ " (" ++ pretty (tg_id u) ++ ")"
       ++ " Action: " ++ action
       ++ match truthy language with Some l => " Language: " ++ l | None => "" end
       ++ match truthy additional_info with Some i => " Info: " ++ i | None => "" end
       ++ " Time: " ++ timestamp in
     match channel_of log_channel_id with
     | Some ch => try_except (env_send env ch log_message) (fun _ => Ok tt)
     | None => Ok tt
     end)
    (fun _ => Ok tt).

(** [log_admin_action] (logger.py:101-127): no [try] of its own. *)
Definition log_admin_action (env : log_env) (log_channel_id : option Z)
    (u : tg_user) (action : string) (target reason : option string)
    : result unit :=
  let info :=
    app (match truthy target with Some t => ["Target: " ++ t] | None => [] end)
        (match truthy reason with Some r => ["Reason: " ++ r] | None => [] end) in
  log_user_action env log_channel_id u ("[ADMIN] " ++ action) None
    (match info with [] => None | _ => Some (String.concat " | " info) end).

(** [log_system_event] (logger.py:129-165). *)
Definition log_system_event (env : log_env) (log_channel_id : option Z)
    (event : string) (details : option string) : result unit :=
  try_except
    (let! timestamp := env_now env in
     let log_message :=
       "System Event" ++ " Event: " ++ event
       ++ match truthy details with Some x => " Details: " ++ x | None => "" end
       ++ " Time: " ++ timestamp in
     match channel_of log_channel_id with
     | Some ch => try_except (env_send env ch log_message) (fun _ => Ok tt)
     | None => Ok tt
     end)
    (fun _ => Ok tt).

(** The effects raise only [Exception]s (no cancellation or interrupt). *)
Definition raises_only_exceptions (env : log_env) : Prop :=
  (forall e, env_now env = Err e -> is_exception e = true) /\
  (forall ch m e, env_send env ch m = Err e -> is_exception e = true).

(* ================================================================== *)
(** ** Translations: [utils/language.py] *)

(** Loaded translations: language key -> (string key -> text). *)
Abbreviation translations := (gmap string (gmap string string)).

Definition LANGUAGE_MAPPING : list (string * string) :=
  [("en", "english"); ("ar", "arabic"); ("ru", "russian"); ("es", "spanish");
   ("zh", "chinese"); ("zh-cn", "chinese"); ("zh-tw", "chinese")].

Definition DEFAULT_LANGUAGE : string := "english".

(** The file [data/language.json] as [load_translations] finds it. *)
Inductive language_file :=
| FileJson (tr : translations)
| FileMissing                (* FileNotFoundError *)
| FileBadJson                (* json.JSONDecodeError *)
| FileUnreadable (msg : string). (* any other OSError, not caught *)

Definition fallback_missing : translations :=
  {[ "english" := {[ "welcome" := "Welcome to Lottery Bot!";
                     "add_me" := "Add Me"; "updates" := "Bot Updates" ]} ]}.

Definition fallback_bad_json : translations :=
  {[ "english" := {[ "welcome" := "Welcome to Lottery Bot!" ]} ]}.

(** [load_translations] (language.py:27-58) with its module-level cache
    [_translations]: the cached translations when there are some, else
    those read from the file. *)
Definition load_translations (cache : option translations) (f : language_file)
    : result translations :=
  match cache with
  | Some tr => Ok tr
  | None =>
      match f with
      | FileJson tr => Ok tr
      | FileMissing => Ok fallback_missing
      | FileBadJson => Ok fallback_bad_json
      | FileUnreadable m => Err (OSError m)
      end
  end.

Definition ascii_lower (c : ascii) : ascii :=
  let k := nat_of_ascii c in
  if (65 <=? k)%nat && (k <=? 90)%nat then ascii_of_nat (k + 32) else c.

Fixpoint str_lower (s : string) : string :=
  match s with
  | EmptyString => EmptyString
  | String c s' => String (ascii_lower c) (str_lower s')
  end.

Fixpoint assoc (k : string) (l : list (string * string)) : option string :=
  match l with
  | [] => None
  | (k', v) :: l' => if String.eqb k k' then Some v else assoc k l'
  end.

(** [get_user_lang] (language.py:61-86), with the translations loaded. *)
Definition get_user_lang (tr : translations) (language_code : option string) : string :=
  match truthy language_code with
  | None => DEFAULT_LANGUAGE
  | Some code =>
      match assoc (str_lower code) LANGUAGE_MAPPING with
      | Some detected => if bool_decide (is_Some (tr !! detected)) then detected
                         else DEFAULT_LANGUAGE
      | None => DEFAULT_LANGUAGE
      end
  end.

(** [get_user_language] (language.py:102-112): the in-memory
    [_user_languages] with the default language. *)
Definition mem_get_user_language (user_languages : gmap Z string) (uid : Z) : string :=
  default DEFAULT_LANGUAGE (user_languages !! uid).

(** *** [str.format] with keyword arguments *)

Section Format.

(** The values of the keyword arguments, and how one is rendered for the
    rest of its replacement field (attribute or index chain, [!conversion]
    and [:format_spec]); rendering may raise. *)
Variable V : Type.
Variable render : V -> string -> result string.

(** The replacement field after a ['{'], up to its matching ['}'] (nested
    braces of a format spec included), and the text after it. *)
Fixpoint take_field (s : string) (depth : nat) : option (string * string) :=
  match s with
  | EmptyString => None
  | String c s' =>
      if Ascii.eqb c "{" then
        option_map (fun fr => (String c fr.1, fr.2)) (take_field s' (S depth))
      else if Ascii.eqb c "}" then
        match depth with
        | O => Some (EmptyString, s')
        | S d => option_map (fun fr => (String c fr.1, fr.2)) (take_field s' d)
        end
      else option_map (fun fr => (String c fr.1, fr.2)) (take_field s' depth)
  end.

(** Split at the first character of [stops]. *)
Fixpoint split_at_any (stops : list ascii) (s : string) : string * string :=
  match s with
  | EmptyString => (EmptyString, EmptyString)
  | String c s' =>
      if existsb (Ascii.eqb c) stops then (EmptyString, s)
      else let '(a, b) := split_at_any stops s' in (String c a, b)
  end.

(** One replacement field: an empty or numeric argument name refers to a
    positional argument (there are none: [IndexError]); a keyword missing
    from [kwargs] raises [KeyError]. *)
Definition format_field (kwargs : gmap string V) (field : string) : result string :=
  let '(name, tail) := split_at_any [":"; "!"]%char field in
  let '(arg, chain) := split_at_any ["."; "["]%char name in
  if String.eqb arg "" || all_digits arg then Err IndexError
  else match kwargs !! arg with
       | None => Err (KeyError arg)
       | Some v => render v (chain ++ tail)
       end.

Fixpoint format_go (fuel : nat) (kwargs : gmap string V) (s : string) : result string :=
  match fuel with
  | O => Ok EmptyString
  | S fuel' =>
      match s with
      | EmptyString => Ok EmptyString
      | String c s' =>
          if Ascii.eqb c "{" then
            match s' with
            | String c2 s'' =>
                if Ascii.eqb c2 "{" then
                  let! rest := format_go fuel' kwargs s'' in Ok (String "{" rest)
                else
                  match take_field s' 0 with
                  | None => Err (ValueError "expected '}' before end of string")
                  | Some (fld, after) =>
                      let! v := format_field kwargs fld in
                      let! rest := format_go fuel' kwargs after in
                      Ok (v ++ rest)
                  end
            | EmptyString => Err (ValueError "Single '{' encountered in format string")
            end
          else if Ascii.eqb c "}" then
            match s' with
            | String c2 s'' =>
                if Ascii.eqb c2 "}" then
                  let! rest := format_go fuel' kwargs s'' in Ok (String "}" rest)
                else Err (ValueError "Single '}' encountered in format string")
            | EmptyString => Err (ValueError "Single '}' encountered in format string")
            end
          else let! rest := format_go fuel' kwargs s' in Ok (String c rest)
      end
  end.

(** [text.format] with the keyword arguments: each round consumes a character. *)
Definition py_format (text : string) (kwargs : gmap string V) : result string :=
  format_go (S (String.length text)) kwargs text.

(** [get_text] (language.py:115-148), with the translations cache and the
    in-memory language preferences. *)
Definition get_text (cache : option translations) (f : language_file)
    (user_languages : gmap Z string) (uid : Z) (key : string)
    (kwargs : gmap string V) : result string :=
  let user_lang := mem_get_user_language user_languages uid in
  let! tr := load_translations cache f in
  let found :=
    match tr !! user_lang ≫= (fun m => m !! key) with
    | Some text => Some text
    | None => tr !! DEFAULT_LANGUAGE ≫= (fun m => m !! key)
    end in
  match found with
  | None => Ok ("[Missing translation: " ++ key ++ "]")
  | Some text =>
      try_except (py_format text kwargs) (fun _ => Ok text)
  end.

End Format.

Arguments format_field {V} render kwargs field.
Arguments format_go {V} render fuel kwargs s.
Arguments py_format {V} render text kwargs.
Arguments get_text {V} render cache f user_languages uid key kwargs.

(** Values rendered with [str()], no format specs. *)
Definition render_plain (v : string) (rest : string) : result string :=
  if String.eqb rest "" then Ok v else Err (ValueError "unsupported format").


(* ================================================================== *)
(** ** The /start command: [handlers/start.py] *)

(** Modelled from the spec: the stored language preferences behind
    [get_user_language]/[set_user_language] of the missing [db.py] ("mapping
    from user id to a language key"), as a map; [get_user_language] gives
    [None] for a user without one. *)
Abbreviation language_store := (gmap Z string).

(** [handle_start_command] (start.py:22-78), effect on the stored
    preferences; the rest of the handler only logs and replies. *)
Definition handle_start_command (tr : translations) (st : language_store)
    (u : tg_user) (language_code : option string) : language_store :=
  let detected_language := get_user_lang tr language_code in
  let saved_language := st !! tg_id u in
  let user_language :=
    match truthy saved_language with
    | Some s => s
    | None => detected_language
    end in
  if match truthy saved_language with
     | None => true
     | Some s => negb (String.eqb s detected_language)
     end
  then <[tg_id u := user_language]> st
  else st.

(** The preference stores the bot can reach: no code path other than
    /start writes a preference. *)
Inductive lang_reachable (tr : translations) : language_store -> Prop :=
| lang_init : lang_reachable tr ∅
| lang_start st u code :
    lang_reachable tr st -> lang_reachable tr (handle_start_command tr st u code).

(** At most one draw holds the lock, and the lock is held exactly while
    one is drawing. *)
Definition draw_excl (s : draw_sys) : Prop :=
  (lock_held s = true <-> (task_a s = DDrawing \/ task_b s = DDrawing)) /\
  ~ (task_a s = DDrawing /\ task_b s = DDrawing).

(* ================================================================== *)
(** ** Settings: [src/helpers/config.py] *)

Module Config.

(** ASCII whitespace as [str.isspace] has it (tab to carriage return, the
    separators 0x1c-0x1f, space).  Texts are byte strings here; non-ASCII
    whitespace and non-ASCII digits are not recognised, so the functions
    below follow Python on ASCII text. *)
Definition is_space (c : ascii) : bool :=
  let k := nat_of_ascii c in
  ((9 <=? k)%nat && (k <=? 13)%nat) || ((28 <=? k)%nat && (k <=? 32)%nat).

Fixpoint lstrip (s : string) : string :=
  match s with
  | EmptyString => EmptyString
  | String c s' => if is_space c then lstrip s' else s
  end.

Fixpoint rstrip (s : string) : string :=
  match s with
  | EmptyString => EmptyString
  | String c s' =>
      let r := rstrip s' in
      if String.eqb r "" && is_space c then EmptyString else String c r
  end.

(** [s.strip()] *)
Definition strip (s : string) : string := rstrip (lstrip s).

(** [s.split(sep)] for a one-character separator. *)
Fixpoint split_sep (sep : ascii) (s : string) : list string :=
  match s with
  | EmptyString => [EmptyString]
  | String c s' =>
      if Ascii.eqb c sep then EmptyString :: split_sep sep s'
      else match split_sep sep s' with
           | p :: ps => String c p :: ps
           | [] => [String c EmptyString]
           end
  end.

(** The digits after the first of an [int()] literal: a single underscore
    may separate two digits. *)
Fixpoint py_int_digits (s : string) (acc : Z) : option Z :=
  match s with
  | EmptyString => Some acc
  | String c s' =>
      match digit_value c with
      | Some v => py_int_digits s' (acc * 10 + v)
      | None =>
          if Ascii.eqb c "_" then
            match s' with
            | String d s'' =>
                match digit_value d with
                | Some v => py_int_digits s'' (acc * 10 + v)
                | None => None
                end
            | EmptyString => None
            end
          else None
      end
  end.

Definition py_int_body (s : string) : option Z :=
  match s with
  | String c s' =>
      match digit_value c with
      | Some v => py_int_digits s' v
      | None => None
      end
  | EmptyString => None
  end.

(** [int(s)] on a stripped text: [None] where Python raises [ValueError]. *)
Definition py_int (s : string) : option Z :=
  match s with
  | String c r =>
      if Ascii.eqb c "-" then option_map Z.opp (py_int_body r)
      else if Ascii.eqb c "+" then py_int_body r
      else py_int_body s
  | EmptyString => None
  end.

Definition admin_ids_error : string :=
  "ADMIN_IDS должен быть списком чисел, разделённых запятыми".

(** [_parse_admin_ids] (config.py:19-31). *)
Definition _parse_admin_ids (value : string) : result (list Z) :=
  if String.eqb value "" then Ok []
  else
    fold_left
      (fun acc part =>
         let! result := acc in
         let part := strip part in
         if String.eqb part "" then Ok result
         else match py_int part with
              | Some z => Ok (app result [z])
              | None => Err (ValueError admin_ids_error)
              end)
      (split_sep "," value) (Ok []).

Record Settings := mk_settings {
  bot_token : string;
  admin_ids : list Z;
  group_chat_id : Z;
  log_channel_id : option Z;
  channel_username : option string;
  updates_channel_username : option string
}.

(** The process environment once the [.env] file has been loaded. *)
Abbreviation environment := (gmap string string).

(** [os.getenv(name, "")] *)
Definition getenv (env : environment) (name : string) : string :=
  default "" (env !! name).

(** [strip(..) or None] *)
Definition or_none (s : string) : option string :=
  if String.eqb s "" then None else Some s.

(** [load_settings] (config.py:34-90), after the [.env] lookup; a
    [RuntimeError] is an [OtherError]. *)
Definition load_settings (env : environment) : result Settings :=
  let bot_token :=
    let t := strip (getenv env "BOT_TOKEN") in
    if String.eqb t "" then strip (getenv env "TOKEN") else t in
  if String.eqb bot_token "" then
    Err (OtherError "BOT_TOKEN or TOKEN not specified in environment")
  else
  let group_chat_id_raw := strip (getenv env "GROUP_CHAT_ID") in
  if String.eqb group_chat_id_raw "" then
    Err (OtherError "GROUP_CHAT_ID not specified in environment")
  else
  match py_int group_chat_id_raw with
  | None => Err (OtherError "GROUP_CHAT_ID must be a number")
  | Some group_chat_id =>
      let! admin_ids := _parse_admin_ids (strip (getenv env "ADMIN_IDS")) in
      match admin_ids with
      | [] => Err (OtherError "ADMIN_IDS list is empty. Specify at least one administrator")
      | _ =>
          let log_channel_id_raw := strip (getenv env "LOG_CHANNEL_ID") in
          (* an invalid number only prints a warning *)
          let log_channel_id :=
            if String.eqb log_channel_id_raw "" then None else py_int log_channel_id_raw in
          Ok (mk_settings bot_token admin_ids group_chat_id log_channel_id
                (or_none (strip (getenv env "CHANNEL_USERNAME")))
                (or_none (strip (getenv env "UPDATES_CHANNEL_USERNAME"))))
      end
  end.

End Config.

(* ================================================================== *)
(** ** Keyboards of [src/helpers/bot.py] and the dispatcher of [main] *)

Record button := mk_button { button_text : string; callback_data : string }.

Record url_button := mk_url_button { url_text : string; url : string }.

(** [s.lstrip(ch)] *)
Fixpoint lstrip_char (ch : ascii) (s : string) : string :=
  match s with
  | EmptyString => EmptyString
  | String c s' => if Ascii.eqb c ch then lstrip_char ch s' else s
  end.

(** [get_welcome_inline_keyboard] (helpers/bot.py:5-34). *)
Definition get_welcome_inline_keyboard (channel_username updates_channel_username : option string)
    (add_me_text updates_text : string) : list (list url_button) :=
  app (match truthy channel_username with
       | Some n => [[mk_url_button add_me_text ("https://t.me/" ++ lstrip_char "@" n)]]
       | None => []
       end)
      (match truthy updates_channel_username with
       | Some n => [[mk_url_button updates_text ("https://t.me/" ++ lstrip_char "@" n)]]
       | None => []
       end).

(** [user_menu], [admin_menu] and [back_menu] (helpers/bot.py:37-80):
    the rows of button texts. *)
Definition user_menu (upload_text tickets_text back_text : string) : list (list string) :=
  [[upload_text]; [tickets_text]; [back_text]].

Definition admin_menu (start_draw_text show_photo_text delete_ticket_text archive_text
    settings_text back_text : string) : list (list string) :=
  [[start_draw_text]; [show_photo_text]; [delete_ticket_text]; [archive_text];
   [settings_text]; [back_text]].

Definition back_menu (back_text : string) : list (list string) := [[back_text]].

(** The menus with their default texts. *)
Definition default_menus : list (list (list string)) :=
  [user_menu "📸 Upload New Photo" "🎟 View My Lottery Tickets" "⬅️ Back to Menu";
   admin_menu "🎲 Start Draw" "📷 Show Photo by Number" "🗑 Delete Ticket"
     "📦 Archive Lottery" "🔧 Check Settings" "⬅️ Back to Menu";
   back_menu "⬅️ Back to Menu"].

(** [lottery_inline_actions] (helpers/bot.py:83-96); an f-string renders
    the integer with [str], which [pretty] is. *)
Definition lottery_inline_actions (ticket_number : Z) (confirm_text reject_text : string)
    : list (list button) :=
  [[mk_button confirm_text ("confirm_win:" ++ pretty ticket_number);
    mk_button reject_text ("reject_win:" ++ pretty ticket_number)]].

(** [user_tickets_inline_keyboard] (helpers/bot.py:99-117): rows of two,
    [for i in range(0, len, 2): for j in range(2): if i + j < len: ...]. *)
Definition user_tickets_inline_keyboard (ticket_numbers : list Z) : list (list button) :=
  match ticket_numbers with
  | [] => []
  | _ =>
      let len := length ticket_numbers in
      map (fun i =>
             flat_map (fun j =>
                         if (i + j <? len)%nat then
                           let ticket_num := nth (i + j) ticket_numbers 0 in
                           [mk_button ("🎟 №" ++ pretty ticket_num)
                                      ("view_ticket:" ++ pretty ticket_num)]
                         else [])
                      [0; 1]%nat)
          (map (fun k => 2 * k)%nat (seq 0 ((len + 1) / 2)))
  end.

(** The row of [user_tickets_inline_keyboard] starting at index [i],
    for [len] tickets whose button at index [k] is [f k]. *)
Definition ticket_row (f : nat -> button) (len : nat) (i : nat) : list button :=
  flat_map (fun j => if (i + j <? len)%nat then [f (i + j)%nat] else []) [0; 1]%nat.

(** The button [user_tickets_inline_keyboard] makes for ticket [n]. *)
Definition ticket_button (n : Z) : button :=
  mk_button ("🎟 №" ++ pretty n) ("view_ticket:" ++ pretty n).

(** The first byte of a text is below 0xE0 (not the first byte of a
    character of three or four UTF-8 bytes). *)
Definition lead_byte_below (s : string) : bool :=
  match s with String c _ => (nat_of_ascii c <? 224)%nat | EmptyString => true end.

(** The callback handlers [main] registers (bot.py:597-598), tried in
    order; [None]: no handler takes the callback. *)
Inductive callback_handler := HConfirmWinner | HViewTicket.

Definition route_callback (data : string) : option callback_handler :=
  if String.prefix "confirm_win:" data then Some HConfirmWinner
  else if String.prefix "view_ticket:" data then Some HViewTicket
  else None.

(** The handlers of text messages, in registration order (bot.py:567-603;
    [handle_upload_photo] needs a photo and never takes a text). *)
Inductive text_handler :=
| HStartCommand | HStartPhotoUpload | HMyTickets | HStartDraw
| HCheckSettings | HArchive | HStartMenu.

(** The texts of the [start_photo_upload] filter (bot.py:573). *)
Definition upload_photo_texts : list string :=
  ["ğŸ“¸ Upload New Photo";
   "ğŸ“¸ Ğ—Ğ°Ğ³Ñ€ÑƒĞ·Ğ¸Ñ‚ÑŒ Ğ½Ğ¾Ğ²Ğ¾Ğµ Ñ„Ğ¾Ñ‚Ğ¾";
   "ğŸ“¸ Ø±ÙØ¹ ØµÙˆØ±Ø© Ø¬Ø¯ÙŠØ¯Ø©";
   "ğŸ“¸ Subir Nueva Foto";
   "ğŸ“¸ ä¸Šä¼ æ–°ç…§ç‰‡"].

(** The texts of the [handle_my_tickets] filter (bot.py:578). *)
Definition my_tickets_texts : list string :=
  ["ğŸŸ View My Lottery Tickets";
   "ğŸŸ ĞŸĞ¾ÑĞ¼Ğ¾Ñ‚Ñ€ĞµÑ‚ÑŒ Ğ¼Ğ¾Ğ¸ Ğ»Ğ¾Ñ‚ĞµÑ€ĞµĞ¹Ğ½Ñ‹Ğµ Ğ±Ğ¸Ğ»ĞµÑ‚Ğ¸ĞºĞ¸";
   "ğŸŸ Ø¹Ø±Ø¶ ØªØ°Ø§ÙƒØ± Ø§Ù„ÙŠØ§Ù†ØµÙŠØ¨ Ø§Ù„Ø®Ø§ØµØ© Ø¨ÙŠ";
   "ğŸŸ Ver Mis Boletos de LoterÃ­a";
   "ğŸŸ æŸ¥çœ‹æˆ‘çš„æŠ½å¥–åˆ¸"].

(** The texts of the [admin_start_draw] filter (bot.py:584). *)
Definition start_draw_texts : list string :=
  ["ğŸ² Start Draw";
   "ğŸ² Ğ—Ğ°Ğ¿ÑƒÑÑ‚Ğ¸Ñ‚ÑŒ Ñ€Ğ¾Ğ·Ñ‹Ğ³Ñ€Ñ‹Ñˆ";
   "ğŸ² Ø¨Ø¯Ø¡ Ø§Ù„Ø³Ø­Ø¨";
   "ğŸ² Iniciar Sorteo";
   "ğŸ² å¼€å§‹æŠ½å¥–"].

(** The texts of the [check_settings] filter (bot.py:588). *)
Definition check_settings_texts : list string :=
  ["ğŸ”§ Check Settings";
   "ğŸ”§ ĞŸÑ€Ğ¾Ğ²ĞµÑ€Ğ¸Ñ‚ÑŒ Ğ½Ğ°ÑÑ‚Ñ€Ğ¾Ğ¹ĞºĞ¸";
   "ğŸ”§ ÙØ­Øµ Ø§Ù„Ø¥Ø¹Ø¯Ø§Ø¯Ø§Øª";
   "ğŸ”§ Verificar ConfiguraciÃ³n";
   "ğŸ”§ æ£€æŸ¥è®¾ç½®"].

(** The texts of the [admin_archive] filter (bot.py:592). *)
Definition archive_texts : list string :=
  ["ğŸ“¦ Archive Lottery";
   "ğŸ“¦ ĞÑ€Ñ…Ğ¸Ğ²Ğ¸Ñ€Ğ¾Ğ²Ğ°Ñ‚ÑŒ Ğ»Ğ¾Ñ‚ĞµÑ€ĞµÑ";
   "ğŸ“¦ Ø£Ø±Ø´ÙØ© Ø§Ù„ÙŠØ§Ù†ØµÙŠØ¨";
   "ğŸ“¦ Archivar LoterÃ­a";
   "ğŸ“¦ å½’æ¡£æŠ½å¥–"].

(** The texts of the [start_menu] filter (bot.py:602). *)
Definition back_to_menu_texts : list string :=
  ["â¬…ï¸ Back to Menu";
   "â¬…ï¸ Ğ’ Ğ¼ĞµĞ½Ñ";
   "â¬…ï¸ Ø§Ù„Ø¹ÙˆØ¯Ø© Ù„Ù„Ù‚Ø§Ø¦Ù…Ø©";
   "â¬…ï¸ Volver al MenÃº";
   "â¬…ï¸ è¿”å›èœå•"].

(** [CommandStart()]: the first word is [/start], possibly with a
    mention [/start@name] (the mention is not checked against the bot's
    name here). *)
Definition command_start (text : string) : bool :=
  let full_command := fst (split_at_any [" "; "009"; "010"]%char text) in
  String.eqb full_command "/start" || String.prefix "/start@" full_command.

(** [F.text.in_(texts)] *)
Definition text_in (text : string) (texts : list string) : bool :=
  existsb (String.eqb text) texts.

Definition route_text (text : string) : option text_handler :=
  if command_start text then Some HStartCommand
  else if text_in text upload_photo_texts then Some HStartPhotoUpload
  else if text_in text my_tickets_texts then Some HMyTickets
  else if text_in text start_draw_texts then Some HStartDraw
  else if text_in text check_settings_texts then Some HCheckSettings
  else if text_in text archive_texts then Some HArchive
  else if text_in text back_to_menu_texts then Some HStartMenu
  else None.

(* ================================================================== *)
(** ** Both language stores *)

(** The preferences [/start] writes through [src.database.db], and the
    in-memory [_user_languages] of [utils/language.py] that [get_text]
    reads.  [language.py]'s [set_user_language], the only writer of the
    latter, is called nowhere. *)
Record lang_state := mk_lang_state {
  db_langs : language_store;
  mem_langs : gmap Z string
}.

Inductive lang_state_reachable (tr : translations) : lang_state -> Prop :=
| lsr_init : lang_state_reachable tr (mk_lang_state ∅ ∅)
| lsr_start s u code :
    lang_state_reachable tr s ->
    lang_state_reachable tr
      (mk_lang_state (handle_start_command tr (db_langs s) u code) (mem_langs s)).

(** A text without braces. *)
Fixpoint brace_free (s : string) : bool :=
  match s with
  | EmptyString => true
  | String c s' => negb (Ascii.eqb c "{") && negb (Ascii.eqb c "}") && brace_free s'
  end.


(* ================================================================== *)
(** ** More handlers of [bot.py] *)

(** [str()] of a list of integers. *)
Definition py_list_str (l : list Z) : string :=
  "[" ++ String.concat ", " (map pretty l) ++ "]".

(** The keyword arguments [check_settings] formats its text with:
    [settings.log_channel_id or "Not set"], the administrator ids and
    [settings.bot_token[:10]]. *)
Definition settings_kwargs (settings : Config.Settings) : gmap string string :=
  {[ "log_channel_id" := match Config.log_channel_id settings with
                         | Some z => if Z.eqb z 0 then "Not set" else pretty z
                         | None => "Not set"
                         end;
     "admin_ids" := py_list_str (Config.admin_ids settings);
     "bot_token" := substring 0 10 (Config.bot_token settings) ]}.

(** [check_settings] (bot.py:138-166): the text answered.  [main] creates
    the logger before polling, with [settings.log_channel_id].  Without a
    user the guard [not user] holds and [get_text(user.id, ..)] raises
    [AttributeError]. *)
Definition check_settings (lenv : log_env) (cache : option translations) (f : language_file)
    (user_languages : gmap Z string) (settings : Config.Settings) (user : option tg_user)
    : result string :=
  try_except
    (match user with
     | None => Err (OtherError "'NoneType' object has no attribute 'id'")
     | Some u =>
         if negb (is_admin (tg_id u) (Config.admin_ids settings)) then
           get_text render_plain cache f user_languages (tg_id u) "insufficient_rights" ∅
         else
           let! _ := log_admin_action lenv (Config.log_channel_id settings) u
                       "check_settings" None None in
           get_text render_plain cache f user_languages (tg_id u) "settings_info"
             (settings_kwargs settings)
     end)
    (fun _ => Ok "Error checking settings").

(** A reply with a reply keyboard ([[]] for none), or no reply. *)
Inductive menu_reply :=
| MenuAnswer (text : string) (keyboard : list (list string))
| MenuSilent.

(** [start_menu] (bot.py:83-135).  [saved_language] is the outcome of
    the store's [get_user_language]: [user_lang] is computed but never
    used, so of its computation only the store read, which may raise, is
    kept ([get_user_lang] reads the translations, as [get_text] does next). *)
Definition start_menu (lenv : log_env) (cache : option translations) (f : language_file)
    (user_languages : gmap Z string) (settings : Config.Settings)
    (saved_language : result (option string)) (user : option tg_user) : result menu_reply :=
  try_except
    (match user with
     | None => Ok MenuSilent
     | Some u =>
         let gt key := get_text render_plain cache f user_languages (tg_id u) key ∅ in
         let! _ := log_user_action lenv (Config.log_channel_id settings) u "menu_access" None None in
         let! _ := saved_language in
         if is_admin (tg_id u) (Config.admin_ids settings) then
           let! menu_text := gt "admin_main_menu" in
           let! start_draw_text := gt "start_draw" in
           let! show_photo_text := gt "show_photo" in
           let! delete_ticket_text := gt "delete_ticket" in
           let! archive_text := gt "archive_lottery" in
           let! settings_text := gt "check_settings" in
           let! back_text := gt "back_to_menu" in
           Ok (MenuAnswer menu_text
                 (admin_menu start_draw_text show_photo_text delete_ticket_text archive_text
                    settings_text back_text))
         else
           let! menu_text := gt "main_menu" in
           let! upload_text := gt "upload_photo" in
           let! tickets_text := gt "my_tickets" in
           let! back_text := gt "back_to_menu" in
           Ok (MenuAnswer menu_text (user_menu upload_text tickets_text back_text))
     end)
    (fun _ => Ok (MenuAnswer "Main Menu"
                   (user_menu "📸 Upload New Photo" "🎟 View My Lottery Tickets" "⬅️ Back to Menu"))).

(** The FSM state of a chat, as far as [UploadPhoto] goes. *)
Inductive fsm_state := NoFsmState | WaitingForPhoto.

(** [start_photo_upload] (bot.py:169-194): the chat's state afterwards and
    the reply.  The state is set before the texts are looked up. *)
Definition start_photo_upload (lenv : log_env) (cache : option translations) (f : language_file)
    (user_languages : gmap Z string) (log_channel_id : option Z) (user : option tg_user)
    (st : fsm_state) : fsm_state * result menu_reply :=
  let error_reply := Ok (MenuAnswer "Error starting photo upload" []) in
  match user with
  | None => (st, Ok MenuSilent)
  | Some u =>
      match log_user_action lenv log_channel_id u "start_photo_upload" None None with
      | Err e => (st, if is_exception e then error_reply else Err e)
      | Ok _ =>
          (WaitingForPhoto,
           try_except
             (let! instructions_text :=
                get_text render_plain cache f user_languages (tg_id u) "photo_upload_instructions" ∅ in
              let! back_text :=
                get_text render_plain cache f user_languages (tg_id u) "back_to_menu" ∅ in
              Ok (MenuAnswer instructions_text (back_menu back_text)))
             (fun _ => error_reply))
      end
  end.




(** [get_available_languages] and [is_language_available]
    (language.py:156-165). *)
Definition get_available_languages (cache : option translations) (f : language_file)
    : result (list string) :=
  let! translations := load_translations cache f in
  Ok (map fst (map_to_list translations)).

Definition is_language_available (cache : option translations) (f : language_file)
    (language : string) : result bool :=
  let! translations := load_translations cache f in
  Ok (bool_decide (is_Some (translations !! language))).

(* ================================================================== *)
(** ** Concrete scenarios *)

(** A store with a confirmed winner: ticket 1 uploaded, then confirmed. *)
Definition store_after_win : db :=
  out_db (admin_confirm_winner [7] 7 "confirm_win:1"
            (out_db (handle_upload_photo 10 None [("photo1", 100)] empty_db))).

(** A clock that works and a log channel whose every send fails. *)
Definition env_send_fails : log_env :=
  mk_log_env (Ok "2026-10-17 12:00:00") (fun _ _ => Err (OSError "network unreachable")).

(** A user whose first /start, with hint "ru", stored "english"
    (no Russian translations loaded) and who then sends /start with "es". *)
Definition store_after_first_start : language_store :=
  handle_start_command ∅ ∅ (mk_tg_user 1 None) (Some "ru").

(** Two administrators press "Start Draw" together, with a log channel
    configured: A passes the [draw_lock.locked] check and suspends in the
    audit call, B passes the same check, A takes the lock and suspends in
    the store query, then B reaches [async with draw_lock]. *)
Definition race_schedule : list (task * option Z) :=
  [(TaskA, None); (TaskB, None); (TaskA, Some 1); (TaskB, None)].

(* ================================================================== *)
(** * Proofs *)

(** ** Sample evaluations *)

Example confirm_example :
  let d := add_ticket 1 10 (Some "a") "f1" (mk_db ∅ 1) in
  out_reply (admin_confirm_winner [7] 7 "confirm_win:1" d) = Notice "winner_published" /\
  out_reply (admin_confirm_winner [7] 7 "confirm_win:x1" d) = Alert "incorrect_ticket_number" /\
  out_reply (admin_confirm_winner [7] 8 "confirm_win:1" d) = Alert "no_rights" /\
  out_reply (handle_my_tickets 10 d) = TicketList [1].
Proof. vm_compute. repeat split. Qed.

Example format_examples :
  py_format render_plain "Ticket #{ticket_number}" {[ "ticket_number" := "5" ]}
    = Ok "Ticket #5" /\
  py_format render_plain "Ticket #{ticket_number}" ∅ = Err (KeyError "ticket_number") /\
  py_format render_plain "{{x}} {}" ∅ = Err IndexError /\
  py_format render_plain "a } b" ∅
    = Err (ValueError "Single '}' encountered in format string").
Proof. vm_compute. repeat split. Qed.

(** ** Ticket store *)

Lemma prefix_app_self (p s : string) : String.prefix p (p ++ s) = true.
Proof.
  induction p as [|c p IH]; simpl.
  - destruct s; reflexivity.
  - destruct (ascii_dec c c) as [_|n]; [exact IH | now destruct n].
Qed.

Lemma set_ticket_status_other n st r d m :
  m <> n -> tickets (snd (set_ticket_status n st r d)) !! m = tickets d !! m.
Proof.
  intros Hne. unfold set_ticket_status.
  destruct (tickets d !! n) as [t|]; [|reflexivity].
  destruct (status t), st; simpl; try reflexivity;
    by rewrite lookup_insert_ne.
Qed.

Lemma set_ticket_status_counter n st r d :
  counter (snd (set_ticket_status n st r d)) = counter d.
Proof.
  unfold set_ticket_status.
  destruct (tickets d !! n) as [t|]; [|reflexivity].
  destruct (status t), st; reflexivity.
Qed.

(** A rejected ticket stays rejected under any status write. *)
Lemma set_ticket_status_keeps_rejected n st r d m t t' :
  tickets d !! m = Some t -> status t = Rejected ->
  tickets (snd (set_ticket_status n st r d)) !! m = Some t' -> status t' = Rejected.
Proof.
  intros Hm Hs H'.
  destruct (decide (m = n)) as [->|Hne].
  - unfold set_ticket_status in H'. rewrite Hm, Hs in H'.
    destruct st; simpl in H'.
    + rewrite Hm in H'. congruence.
    + rewrite lookup_insert_eq in H'. injection H' as <-. reflexivity.
  - rewrite set_ticket_status_other in H' by exact Hne. congruence.
Qed.

Lemma numbers_issued_step d d' :
  numbers_issued d -> bot_step d d' -> numbers_issued d'.
Proof.
  intros Hd Hs. destruct Hs; unfold numbers_issued in *; simpl.
  - unfold handle_upload_photo.
    destruct photos as [|p ps]; simpl; [exact Hd|].
    intros m t Hm. destruct (decide (m = counter d + 1)) as [->|Hne]; [lia|].
    rewrite lookup_insert_ne in Hm by congruence.
    specialize (Hd m t Hm). lia.
  - unfold admin_confirm_winner.
    destruct (is_admin uid admin_ids); simpl; [|exact Hd].
    destruct (String.prefix "confirm_win:" data); simpl; [|exact Hd].
    destruct (after_first_colon data) as [suffix|]; simpl; [|exact Hd].
    destruct (parse_int_safe suffix) as [num|]; simpl; [|exact Hd].
    destruct (get_ticket_by_number_any_status num d) as [t|]; simpl; [|exact Hd].
    destruct (status_eqb (status t) Active); simpl; [|exact Hd].
    intros m t' Hm. rewrite set_ticket_status_counter.
    destruct (decide (m = num)) as [->|Hne].
    + unfold set_ticket_status in Hm.
      destruct (tickets d !! num) as [t0|] eqn:E; [|eauto].
      destruct (status t0); simpl in Hm; eauto.
    + rewrite set_ticket_status_other in Hm by exact Hne. eauto.
  - unfold user_view_ticket_callback.
    repeat (case_match; simpl); exact Hd.
  - unfold handle_my_tickets. case_match; exact Hd.
  - unfold admin_archive. destruct (is_admin uid admin_ids); simpl; [|exact Hd].
    intros m t Hm. rewrite lookup_empty in Hm. discriminate.
  - intros m t' Hm. rewrite set_ticket_status_counter.
    destruct (decide (m = n)) as [->|Hne].
    + unfold set_ticket_status in Hm.
      destruct (tickets d !! n) as [t0|] eqn:E; [|eauto].
      destruct (status t0), st; simpl in Hm; eauto.
    + rewrite set_ticket_status_other in Hm by exact Hne. eauto.
Qed.

Lemma reachable_numbers_issued d : reachable d -> numbers_issued d.
Proof.
  induction 1 as [|d d' _ IH Hs].
  - intros n t H. simpl in H. rewrite lookup_empty in H. discriminate.
  - eapply numbers_issued_step; eauto.
Qed.

(** ** Listing a user's tickets *)

Lemma strongly_sorted_le_lt (l : list Z) :
  StronglySorted Z.le l -> NoDup l -> StronglySorted Z.lt l.
Proof.
  induction l as [|a l IH]; intros Hs Hn; [constructor|].
  apply StronglySorted_inv in Hs as [Hs Hf].
  apply NoDup_cons in Hn as [Hna Hn].
  constructor; [auto|].
  apply Forall_forall. intros x Hx.
  rewrite Forall_forall in Hf. specialize (Hf x Hx).
  assert (a <> x) by (intros ->; apply Hna; by apply list_elem_of_In).
  lia.
Qed.

Lemma active_rows_NoDup uid (m : gmap Z ticket) :
  NoDup (fst <$> filter (fun kt : Z * ticket =>
                           (user_id kt.2 = uid) /\ status kt.2 = Active)
                        (map_to_list m)).
Proof.
  eapply sublist_NoDup; [apply (NoDup_fst_map_to_list m)|].
  apply fmap_sublist, sublist_filter.
Qed.

Lemma active_rows_elem uid (m : gmap Z ticket) n :
  n ∈ (fst <$> filter (fun kt : Z * ticket =>
                         (user_id kt.2 = uid) /\ status kt.2 = Active)
                      (map_to_list m))
  <-> exists t, m !! n = Some t /\ user_id t = uid /\ status t = Active.
Proof.
  rewrite list_elem_of_fmap. split.
  - intros [[k t] [-> Hk]]. apply list_elem_of_filter in Hk as [[Hu Ha] Hk].
    apply elem_of_map_to_list in Hk. simpl in *. eauto.
  - intros (t & Ht & Hu & Ha). exists (n, t). split; [reflexivity|].
    apply list_elem_of_filter. split; [simpl; auto|].
    by apply elem_of_map_to_list.
Qed.

(** ** Payload parsing *)

Lemma parse_digits_all_digits s acc z :
  parse_digits s acc = Some z -> all_digits s = true.
Proof.
  revert acc. induction s as [|c s IH]; intros acc H; simpl in *; [reflexivity|].
  destruct (digit_value c); [eauto | discriminate].
Qed.

Lemma parse_unsigned_digits s z :
  parse_unsigned s = Some z -> s <> EmptyString /\ all_digits s = true.
Proof.
  destruct s as [|c s]; simpl; [discriminate|].
  intros H. split; [discriminate|].
  exact (parse_digits_all_digits (String c s) 0 z H).
Qed.

(** Whatever [parse_int_safe] accepts is a decimal integer. *)
Lemma parse_int_safe_decimal s z :
  parse_int_safe s = Some z -> is_decimal_integer s = true.
Proof.
  destruct s as [|c r]; simpl; [discriminate|].
  destruct (Ascii.eqb c "-") eqn:Em.
  - intros H. destruct (parse_unsigned r) as [y|] eqn:Ep; [|discriminate].
    apply parse_unsigned_digits in Ep as [Hne Hd].
    destruct r; [congruence | exact Hd].
  - destruct (Ascii.eqb c "+") eqn:Ep; simpl.
    + intros H. apply parse_unsigned_digits in H as [Hne Hd].
      destruct r; [congruence | exact Hd].
    + intros H. exact (parse_digits_all_digits (String c r) 0 z H).
Qed.

Lemma parse_int_safe_not_decimal s :
  is_decimal_integer s = false -> parse_int_safe s = None.
Proof.
  intros H. destruct (parse_int_safe s) as [z|] eqn:E; [|reflexivity].
  apply parse_int_safe_decimal in E. congruence.
Qed.

(** ** Language preferences *)

Lemma assoc_in k l v : assoc k l = Some v -> exists k', In (k', v) l.
Proof.
  induction l as [|[k' v'] l IH]; simpl; [discriminate|].
  destruct (String.eqb k k'); [intros [= ->]; eauto|].
  intros H. destruct (IH H) as [k'' Hin]. eauto.
Qed.

Lemma get_user_lang_nonempty tr code : get_user_lang tr code <> "".
Proof.
  unfold get_user_lang.
  destruct (truthy code) as [c|]; [|discriminate].
  destruct (assoc (str_lower c) LANGUAGE_MAPPING) as [v|] eqn:E; [|discriminate].
  case_bool_decide; [|discriminate].
  apply assoc_in in E as [k' Hin].
  simpl in Hin. repeat destruct Hin as [Hin|Hin]; try injection Hin as _ <-;
    try discriminate; contradiction.
Qed.

Lemma truthy_some o s : truthy o = Some s -> o = Some s /\ s <> "".
Proof.
  destruct o as [s'|]; simpl; [|discriminate].
  destruct (String.eqb s' "") eqn:E; [discriminate|].
  intros [= ->]. split; [reflexivity|].
  intros ->. discriminate.
Qed.

Lemma truthy_nonempty s : s <> "" -> truthy (Some s) = Some s.
Proof.
  intros H. simpl. destruct (String.eqb s "") eqn:E; [|reflexivity].
  apply String.eqb_eq in E. contradiction.
Qed.

(** Every stored preference is a non-empty language key. *)
Lemma lang_reachable_nonempty tr st :
  lang_reachable tr st -> forall u s, st !! u = Some s -> s <> "".
Proof.
  induction 1 as [|st v code _ IH]; intros u s H.
  - rewrite lookup_empty in H. discriminate.
  - unfold handle_start_command in H.
    destruct (truthy (st !! tg_id v)) as [s0|] eqn:Et.
    + apply truthy_some in Et as [Et Hne].
      destruct (negb (String.eqb s0 (get_user_lang tr code))); [|eauto].
      destruct (decide (u = tg_id v)) as [->|Hne'].
      * rewrite lookup_insert_eq in H. congruence.
      * rewrite lookup_insert_ne in H by congruence. eauto.
    + destruct (decide (u = tg_id v)) as [->|Hne'].
      * rewrite lookup_insert_eq in H. injection H as <-.
        apply get_user_lang_nonempty.
      * rewrite lookup_insert_ne in H by congruence. eauto.
Qed.

(** ** Formatting *)

Lemma format_field_error {V} (render : V -> string -> result string) kwargs fld e :
  (forall v rest e', render v rest = Err e' -> is_exception e' = true) ->
  format_field render kwargs fld = Err e -> is_exception e = true.
Proof.
  intros Hr. unfold format_field.
  destruct (split_at_any [":"; "!"]%char fld) as [name tail].
  destruct (split_at_any ["."; "["]%char name) as [arg chain].
  destruct (String.eqb arg "" || all_digits arg); [intros [= <-]; reflexivity|].
  destruct (kwargs !! arg); [eauto | intros [= <-]; reflexivity].
Qed.

Lemma format_go_error {V} (render : V -> string -> result string) fuel kwargs s e :
  (forall v rest e', render v rest = Err e' -> is_exception e' = true) ->
  format_go render fuel kwargs s = Err e -> is_exception e = true.
Proof.
  intros Hr. revert s. induction fuel as [|fuel IH]; intros s H; simpl in H;
    [discriminate|].
  destruct s as [|c s']; [discriminate|].
  destruct (Ascii.eqb c "{").
  - destruct s' as [|c2 s'']; [injection H as <-; reflexivity|].
    destruct (Ascii.eqb c2 "{").
    + destruct (format_go render fuel kwargs s'') eqn:E; simpl in H;
        [discriminate | injection H as ->; eauto].
    + destruct (take_field (String c2 s'') 0) as [[fld after]|];
        [|injection H as <-; reflexivity].
      destruct (format_field render kwargs fld) eqn:Ef; simpl in H;
        [|injection H as ->; eauto using format_field_error].
      destruct (format_go render fuel kwargs after) eqn:E; simpl in H;
        [discriminate | injection H as ->; eauto].
  - destruct (Ascii.eqb c "}").
    + destruct s' as [|c2 s'']; [injection H as <-; reflexivity|].
      destruct (Ascii.eqb c2 "}"); [|injection H as <-; reflexivity].
      destruct (format_go render fuel kwargs s'') eqn:E; simpl in H;
        [discriminate | injection H as ->; eauto].
    + destruct (format_go render fuel kwargs s') eqn:E; simpl in H;
        [discriminate | injection H as ->; eauto].
Qed.

(** ** Claims about the ticket store *)

(** C2: when an administrator confirms an active ticket [n] as winner
    (callback payload [confirm_win:<n>]), the ticket's status becomes
    rejected (so it is no longer an active ticket a later draw can pick);
    every other ticket, and the counter, stay as they were. *)
Theorem confirm_winner_rejects_only_that_ticket admin_ids uid suffix n d t :
  is_admin uid admin_ids = true ->
  parse_int_safe suffix = Some n ->
  tickets d !! n = Some t -> status t = Active ->
  let d' := out_db (admin_confirm_winner admin_ids uid ("confirm_win:" ++ suffix) d) in
  tickets d' !! n = Some (with_status t Rejected None) /\
  status (with_status t Rejected None) = Rejected /\
  get_active_ticket_by_number n d' = None /\
  (forall m, m <> n -> tickets d' !! m = tickets d !! m) /\
  counter d' = counter d.
Proof.
  intros Ha Hp Ht Hs d'. subst d'.
  unfold admin_confirm_winner. rewrite Ha, prefix_app_self. simpl negb.
  simpl after_first_colon. cbv match. change ("" ++ suffix) with suffix.
  rewrite Hp. unfold get_ticket_by_number_any_status. rewrite Ht, Hs. simpl.
  unfold set_ticket_status. rewrite Ht, Hs. simpl.
  split; [by rewrite lookup_insert_eq|].
  split; [reflexivity|].
  split; [unfold get_active_ticket_by_number; simpl; by rewrite lookup_insert_eq|].
  split; [|reflexivity].
  intros m Hne. by rewrite lookup_insert_ne.
Qed.

Lemma confirm_winner_rejects_only_that_ticket_witness :
  let d := add_ticket 1 10 (Some "ann") "photo1" (mk_db ∅ 1) in
  let d' := out_db (admin_confirm_winner [7] 7 ("confirm_win:" ++ "1") d) in
  tickets d' !! 1 = Some (mk_ticket 1 10 (Some "ann") "photo1" Rejected None) /\
  status (mk_ticket 1 10 (Some "ann") "photo1" Rejected None) = Rejected /\
  get_active_ticket_by_number 1 d' = None /\
  (forall m, m <> 1 -> tickets d' !! m = tickets d !! m) /\
  counter d' = counter d.
Proof.
  exact (confirm_winner_rejects_only_that_ticket [7] 7 "1" 1
           (add_ticket 1 10 (Some "ann") "photo1" (mk_db ∅ 1))
           (mk_ticket 1 10 (Some "ann") "photo1" Active None)
           eq_refl eq_refl eq_refl eq_refl).
Defined.

(** C3: an administrator's archive removes every ticket of the round,
    active and rejected, so no user has an active ticket left; the counter
    is kept, so the next ticket number is one more than the last one issued
    before the archive. *)
Theorem archive_clears_round_keeps_counter admin_ids uid d :
  is_admin uid admin_ids = true ->
  let '(last, d1) := get_next_ticket_number d in
  let d2 := out_db (admin_archive admin_ids uid d1) in
  tickets d2 = ∅ /\
  (forall u, get_active_tickets_by_user u d2 = []) /\
  fst (get_next_ticket_number d2) = last + 1.
Proof.
  intros Ha. simpl. unfold admin_archive. rewrite Ha. simpl.
  split; [reflexivity|]. split; [|reflexivity].
  intros u. unfold get_active_tickets_by_user. simpl.
  by rewrite map_to_list_empty.
Qed.

Lemma archive_clears_round_keeps_counter_witness :
  let d := add_ticket 1 10 None "photo1" (mk_db ∅ 1) in
  let '(last, d1) := get_next_ticket_number d in
  let d2 := out_db (admin_archive [7] 7 d1) in
  tickets d2 = ∅ /\
  (forall u, get_active_tickets_by_user u d2 = []) /\
  fst (get_next_ticket_number d2) = last + 1.
Proof.
  exact (archive_clears_round_keeps_counter [7] 7
           (add_ticket 1 10 None "photo1" (mk_db ∅ 1)) eq_refl).
Defined.

(** C4: in every store the bot can reach, a rejected ticket cannot be
    made active again: [set_ticket_status n Active _] reports failure and
    changes nothing, and after any request of the bot or any status write
    the ticket, while still stored, is rejected. *)
Theorem rejected_is_terminal d n t :
  reachable d -> tickets d !! n = Some t -> status t = Rejected ->
  (forall r, set_ticket_status n Active r d = (false, d)) /\
  (forall d' t', bot_step d d' -> tickets d' !! n = Some t' -> status t' = Rejected).
Proof.
  intros Hr Ht Hs. split.
  { intros r. unfold set_ticket_status. by rewrite Ht, Hs. }
  intros d' t' Hstep H'.
  pose proof (reachable_numbers_issued d Hr) as Hi.
  destruct Hstep; simpl in H'.
  - unfold handle_upload_photo in H'.
    destruct photos as [|p ps]; simpl in H'; [congruence|].
    assert (n <> counter d + 1) by (specialize (Hi n t Ht); lia).
    rewrite lookup_insert_ne in H' by congruence. congruence.
  - unfold admin_confirm_winner in H'.
    destruct (is_admin uid admin_ids); simpl in H'; [|congruence].
    destruct (String.prefix "confirm_win:" data); simpl in H'; [|congruence].
    destruct (after_first_colon data) as [suffix|]; simpl in H'; [|congruence].
    destruct (parse_int_safe suffix) as [num|]; simpl in H'; [|congruence].
    destruct (get_ticket_by_number_any_status num d) as [t0|]; simpl in H'; [|congruence].
    destruct (status_eqb (status t0) Active); simpl in H'; [|congruence].
    exact (set_ticket_status_keeps_rejected num Rejected None d n t t' Ht Hs H').
  - unfold user_view_ticket_callback in H'.
    repeat (case_match; simpl in H'); congruence.
  - unfold handle_my_tickets in H'. case_match; simpl in H'; congruence.
  - unfold admin_archive in H'.
    destruct (is_admin uid admin_ids); simpl in H'; [|congruence].
    rewrite lookup_empty in H'. discriminate.
  - exact (set_ticket_status_keeps_rejected n0 st reason d n t t' Ht Hs H').
Qed.

Lemma rejected_is_terminal_witness :
  (forall r, set_ticket_status 1 Active r store_after_win = (false, store_after_win)) /\
  (forall d' t', bot_step store_after_win d' -> tickets d' !! 1 = Some t' ->
                 status t' = Rejected).
Proof.
  apply (rejected_is_terminal store_after_win 1
           (mk_ticket 1 10 None "photo1" Rejected None)).
  - eapply reach_step; [eapply reach_step; [apply reach_init | apply step_upload]|].
    apply step_confirm.
  - reflexivity.
  - reflexivity.
Defined.

(** C7: [list_active_tickets_for_user]: the numbers listed for a user are
    exactly those of the user's active tickets, in strictly ascending
    order; a user without an active ticket gets the empty list. *)
Theorem active_tickets_by_user_spec uid d :
  let l := get_active_tickets_by_user uid d in
  StronglySorted Z.lt l /\
  (forall n, In n l <->
     exists t, tickets d !! n = Some t /\ user_id t = uid /\ status t = Active) /\
  ((forall n t, tickets d !! n = Some t -> user_id t = uid -> status t <> Active) ->
   l = []).
Proof.
  unfold get_active_tickets_by_user.
  set (rows := fst <$> filter _ (map_to_list (tickets d))).
  assert (Hperm : merge_sort Z.le rows ≡ₚ rows) by apply merge_sort_Permutation.
  assert (Hmem : forall n, In n (merge_sort Z.le rows) <->
            exists t, tickets d !! n = Some t /\ user_id t = uid /\ status t = Active).
  { intros n. rewrite <- list_elem_of_In, Hperm. apply active_rows_elem. }
  split; [|split; [exact Hmem|]].
  - apply strongly_sorted_le_lt.
    + apply StronglySorted_merge_sort; [intros ? ? ? ? ?; lia | intros x y; lia].
    + rewrite Hperm. apply active_rows_NoDup.
  - intros Hnone. destruct (merge_sort Z.le rows) as [|x l'] eqn:E; [reflexivity|].
    exfalso.
    destruct (proj1 (Hmem x) (or_introl eq_refl)) as (t & Ht & Hu & Ha).
    exact (Hnone x t Ht Hu Ha).
Qed.

(** ** Claims about the callback handlers *)

(** C5 (as stated, refuted): a non-administrator confirming a stale
    number (no ticket 5 exists) is not told the ticket is unavailable; the
    administrator check comes first and answers "no rights". *)
Lemma stale_confirm_non_admin_counterexample :
  parse_int_safe "5" = Some 5 /\
  tickets empty_db !! 5 = None /\
  out_reply (admin_confirm_winner [7] 8 ("confirm_win:" ++ "5") empty_db) = Alert "no_rights" /\
  out_reply (admin_confirm_winner [7] 8 ("confirm_win:" ++ "5") empty_db)
    <> Alert "ticket_unavailable".
Proof. vm_compute. repeat split. discriminate. Qed.

(** C5 (amended): confirming a number [n] that names no ticket or a
    ticket that is not active leaves the store exactly as it was and writes
    no status; an administrator is told the ticket is unavailable, any
    other caller that they have no rights. *)
Theorem stale_confirm_is_noop admin_ids uid suffix n d :
  parse_int_safe suffix = Some n ->
  (tickets d !! n = None \/ exists t, tickets d !! n = Some t /\ status t <> Active) ->
  let o := admin_confirm_winner admin_ids uid ("confirm_win:" ++ suffix) d in
  out_db o = d /\
  (forall m st, ~ In (CallSetStatus m st) (out_calls o)) /\
  out_reply o = (if is_admin uid admin_ids then Alert "ticket_unavailable"
                 else Alert "no_rights").
Proof.
  intros Hp Hstale o. subst o. unfold admin_confirm_winner.
  destruct (is_admin uid admin_ids); simpl negb; cbv iota;
    [|split; [reflexivity | split; [intros m st []|reflexivity]]].
  rewrite prefix_app_self. simpl negb. simpl after_first_colon. cbv match.
  change ("" ++ suffix) with suffix. rewrite Hp.
  unfold get_ticket_by_number_any_status.
  destruct Hstale as [Hn | (t & Ht & Hs)].
  - rewrite Hn. simpl. split; [reflexivity|]. split; [|reflexivity].
    intros m st [H|[]]. discriminate.
  - rewrite Ht. destruct (status t) eqn:E; [contradiction|]. simpl.
    split; [reflexivity|]. split; [|reflexivity].
    intros m st [H|[]]. discriminate.
Qed.

Lemma stale_confirm_is_noop_witness :
  let d := store_after_win in
  let o := admin_confirm_winner [7] 7 ("confirm_win:" ++ "1") d in
  out_db o = d /\
  (forall m st, ~ In (CallSetStatus m st) (out_calls o)) /\
  out_reply o = (if is_admin 7 [7] then Alert "ticket_unavailable" else Alert "no_rights").
Proof.
  apply (stale_confirm_is_noop [7] 7 "1" 1 store_after_win).
  - reflexivity.
  - right. exists (mk_ticket 1 10 None "photo1" Rejected None).
    split; [reflexivity | discriminate].
Defined.

(** C6 (as stated, refuted): a malformed confirm payload from a
    non-administrator is answered "no rights", not "invalid ticket
    number". *)
Lemma malformed_payload_non_admin_counterexample :
  is_decimal_integer "abc" = false /\
  out_reply (admin_confirm_winner [7] 8 ("confirm_win:" ++ "abc") empty_db) = Alert "no_rights" /\
  out_reply (admin_confirm_winner [7] 8 ("confirm_win:" ++ "abc") empty_db)
    <> Alert "incorrect_ticket_number".
Proof. vm_compute. repeat split. discriminate. Qed.

(** C6 (amended): for a payload [confirm_win:<suffix>] or
    [view_ticket:<suffix>] whose suffix is not a decimal integer, neither
    handler touches the store (no lookup, no write); the view handler and
    the confirm handler of an administrator report an invalid ticket
    number, the confirm handler of anyone else reports missing rights. *)
Theorem malformed_payload_is_noop admin_ids uid suffix d :
  is_decimal_integer suffix = false ->
  let c := admin_confirm_winner admin_ids uid ("confirm_win:" ++ suffix) d in
  let v := user_view_ticket_callback uid ("view_ticket:" ++ suffix) d in
  out_calls c = [] /\ out_db c = d /\
  out_reply c = (if is_admin uid admin_ids then Alert "incorrect_ticket_number"
                 else Alert "no_rights") /\
  out_calls v = [] /\ out_db v = d /\ out_reply v = Alert "incorrect_ticket_number".
Proof.
  intros Hd c v. subst c v.
  pose proof (parse_int_safe_not_decimal suffix Hd) as Hp.
  unfold admin_confirm_winner, user_view_ticket_callback.
  rewrite !prefix_app_self. simpl negb. simpl after_first_colon. cbv match.
  change ("" ++ suffix) with suffix. rewrite Hp.
  destruct (is_admin uid admin_ids); simpl; repeat split.
Qed.

Lemma malformed_payload_is_noop_witness :
  let c := admin_confirm_winner [7] 7 ("confirm_win:" ++ "12a") store_after_win in
  let v := user_view_ticket_callback 7 ("view_ticket:" ++ "12a") store_after_win in
  out_calls c = [] /\ out_db c = store_after_win /\
  out_reply c = (if is_admin 7 [7] then Alert "incorrect_ticket_number"
                 else Alert "no_rights") /\
  out_calls v = [] /\ out_db v = store_after_win /\
  out_reply v = Alert "incorrect_ticket_number".
Proof.
  apply (malformed_payload_is_noop [7] 7 "12a" store_after_win).
  reflexivity.
Defined.

(** ** Claim about audit logging *)

(** C8: audit logging is best-effort: whatever the clock and the channel
    send do, as long as what they raise are [Exception]s, each of
    [log_user_action], [log_admin_action] and [log_system_event] returns
    normally to its caller. *)
Theorem audit_logging_never_raises env log_channel_id :
  raises_only_exceptions env ->
  (forall u action language info,
     log_user_action env log_channel_id u action language info = Ok tt) /\
  (forall u action target reason,
     log_admin_action env log_channel_id u action target reason = Ok tt) /\
  (forall event details,
     log_system_event env log_channel_id event details = Ok tt).
Proof.
  intros [Hnow Hsend].
  assert (Hsent : forall ch m, try_except (env_send env ch m) (fun _ => Ok tt) = Ok tt).
  { intros ch m. unfold try_except.
    destruct (env_send env ch m) as [[]|e] eqn:E; [reflexivity|].
    by rewrite (Hsend ch m e E). }
  assert (Huser : forall u action language info,
             log_user_action env log_channel_id u action language info = Ok tt).
  { intros u action language info. unfold log_user_action.
    destruct (env_now env) as [ts|e] eqn:En; simpl.
    - destruct (channel_of log_channel_id); [by rewrite Hsent | reflexivity].
    - by rewrite (Hnow e eq_refl). }
  split; [exact Huser|]. split.
  - intros u action target reason. apply Huser.
  - intros event details. unfold log_system_event.
    destruct (env_now env) as [ts|e] eqn:En; simpl.
    + destruct (channel_of log_channel_id); [by rewrite Hsent | reflexivity].
    + by rewrite (Hnow e eq_refl).
Qed.

Lemma audit_logging_never_raises_witness :
  (forall u action language info,
     log_user_action env_send_fails (Some (-1001)) u action language info = Ok tt) /\
  (forall u action target reason,
     log_admin_action env_send_fails (Some (-1001)) u action target reason = Ok tt) /\
  (forall event details,
     log_system_event env_send_fails (Some (-1001)) event details = Ok tt).
Proof.
  apply (audit_logging_never_raises env_send_fails (Some (-1001))).
  split.
  - intros e H. discriminate.
  - intros ch m e H. injection H as <-. reflexivity.
Defined.

(** ** Claim about the language preference *)

(** C9: once a user has a stored language preference, a later /start
    command, by any user and with any locale hint, leaves it unchanged. *)
Theorem start_keeps_saved_language tr st u code uid s :
  lang_reachable tr st -> st !! uid = Some s ->
  handle_start_command tr st u code !! uid = Some s.
Proof.
  intros Hr Hs. pose proof (lang_reachable_nonempty tr st Hr) as Hne.
  unfold handle_start_command.
  destruct (decide (uid = tg_id u)) as [->|Hother].
  - rewrite Hs, (truthy_nonempty s (Hne _ _ Hs)).
    destruct (negb (String.eqb s (get_user_lang tr code))); [|exact Hs].
    apply lookup_insert_eq.
  - destruct (match truthy (st !! tg_id u) with
              | Some s0 => negb (String.eqb s0 (get_user_lang tr code))
              | None => true end); [|exact Hs].
    rewrite lookup_insert_ne by congruence. exact Hs.
Qed.

Lemma start_keeps_saved_language_witness :
  handle_start_command ∅ store_after_first_start (mk_tg_user 1 None) (Some "es") !! 1
    = Some "english".
Proof.
  apply (start_keeps_saved_language ∅ store_after_first_start
           (mk_tg_user 1 None) (Some "es") 1 "english").
  - apply lang_start. apply lang_init.
  - reflexivity.
Defined.

(** ** Claim about translations *)

(** C10: with the translations loaded (as [main] does before serving any
    request, bot.py:549), [get_text] returns a string for every user, key
    and keyword arguments, never an exception: the text of the user's
    language when it has the key, else the English one, else
    ["[Missing translation: <key>]"]; when formatting the text with the
    keyword arguments fails (a placeholder without an argument, a stray
    brace, a bad format spec), the unformatted text.  Rendering an argument
    is assumed to raise only [Exception]s. *)
Theorem get_text_total_with_fallback {V} (render : V -> string -> result string)
    tr f user_languages uid key (kwargs : gmap string V) :
  (forall v rest e, render v rest = Err e -> is_exception e = true) ->
  let lang := mem_get_user_language user_languages uid in
  let finish text :=
    match py_format render text kwargs with Ok s => s | Err _ => text end in
  exists r,
    get_text render (Some tr) f user_languages uid key kwargs = Ok r /\
    (forall text, tr !! lang ≫= (fun m => m !! key) = Some text -> r = finish text) /\
    (tr !! lang ≫= (fun m => m !! key) = None ->
     forall text, tr !! DEFAULT_LANGUAGE ≫= (fun m => m !! key) = Some text ->
     r = finish text) /\
    (tr !! lang ≫= (fun m => m !! key) = None ->
     tr !! DEFAULT_LANGUAGE ≫= (fun m => m !! key) = None ->
     r = "[Missing translation: " ++ key ++ "]").
Proof.
  intros Hr lang finish.
  assert (Hfin : forall text,
             try_except (py_format render text kwargs) (fun _ => Ok text) = Ok (finish text)).
  { intros text. subst finish. unfold try_except.
    destruct (py_format render text kwargs) as [s|e] eqn:E; [reflexivity|].
    unfold py_format in E. by rewrite (format_go_error render _ _ _ e Hr E). }
  unfold get_text. simpl bind. fold lang.
  destruct (tr !! lang ≫= (fun m => m !! key)) as [text|] eqn:Eu.
  - exists (finish text). split; [apply Hfin|].
    split; [intros text' [= <-]; reflexivity|].
    split; intros; discriminate.
  - destruct (tr !! DEFAULT_LANGUAGE ≫= (fun m => m !! key)) as [text|] eqn:Ed.
    + exists (finish text). split; [apply Hfin|].
      split; [discriminate|]. split; [|intros _ ?; discriminate].
      intros _ text' [= <-]. reflexivity.
    + eexists. split; [reflexivity|].
      split; [discriminate|]. split; [intros _ ? ?; discriminate|].
      intros _ _. reflexivity.
Qed.

(** The English fallback translations, a user without a preference, and
    a placeholder whose argument is missing. *)
Lemma get_text_total_with_fallback_witness :
  let tr := {[ "english" := {[ "your_ticket" := "Your ticket #{ticket_number}" ]} ]} in
  let lang := mem_get_user_language ∅ 1 in
  let finish text :=
    match py_format render_plain text ∅ with Ok s => s | Err _ => text end in
  exists r,
    get_text render_plain (Some tr) FileMissing ∅ 1 "your_ticket" ∅ = Ok r /\
    (forall text, tr !! lang ≫= (fun m => m !! "your_ticket") = Some text -> r = finish text) /\
    (tr !! lang ≫= (fun m => m !! "your_ticket") = None ->
     forall text, tr !! DEFAULT_LANGUAGE ≫= (fun m => m !! "your_ticket") = Some text ->
     r = finish text) /\
    (tr !! lang ≫= (fun m => m !! "your_ticket") = None ->
     tr !! DEFAULT_LANGUAGE ≫= (fun m => m !! "your_ticket") = None ->
     r = "[Missing translation: " ++ "your_ticket" ++ "]").
Proof.
  apply (get_text_total_with_fallback render_plain
           {[ "english" := {[ "your_ticket" := "Your ticket #{ticket_number}" ]} ]}
           FileMissing ∅ 1 "your_ticket" ∅).
  intros v rest e. unfold render_plain.
  destruct (String.eqb rest ""); [discriminate | intros [= <-]; reflexivity].
Defined.

(** ** Claim about draw coordination *)

(** C1 (refuted on the code): in the schedule above the second caller is
    not told "draw in progress": with the spec's non-blocking lock its
    acquisition fails and it gets the error reply "Error starting draw";
    with a queueing [asyncio.Lock] it waits for A's draw instead. *)
Theorem concurrent_draw_not_told_in_progress :
  draw_run NonBlockingLock true race_schedule draw_init
    = Some (mk_draw_sys true DDrawing (DDone DrawError)) /\
  draw_run QueueingLock true (firstn 3 race_schedule) draw_init
    = Some (mk_draw_sys true DDrawing DLogging) /\
  draw_run QueueingLock true race_schedule draw_init = None.
Proof. vm_compute. repeat split. Qed.

(** The lock is held exactly while one task is drawing, and never two
    tasks draw at once, whatever the lock kind and the schedule. *)
Lemma draw_sys_step_excl k log_suspends tk s s' :
  draw_excl s -> draw_sys_step k log_suspends tk s = Some s' -> draw_excl s'.
Proof.
  destruct s as [l a b], tk as [[] pick];
    unfold draw_excl; simpl; intros [H1 H2] H;
    destruct a, b, l, k, log_suspends; simpl in H;
    try discriminate; injection H as <-; simpl;
    (split; [split|]); intuition congruence.
Qed.

Lemma draw_run_excl k log_suspends sched s s' :
  draw_excl s -> draw_run k log_suspends sched s = Some s' -> draw_excl s'.
Proof.
  revert s. induction sched as [|tk rest IH]; intros s Hs H; simpl in H.
  - congruence.
  - destruct (draw_sys_step k log_suspends tk s) as [s1|] eqn:E; [|discriminate].
    exact (IH s1 (draw_sys_step_excl k log_suspends tk s s1 Hs E) H).
Qed.

(* ================================================================== *)
(** * Further properties of the code *)

(** ** Printing and reading back integers *)

Lemma str_app_assoc (a b c : string) : (a ++ b) ++ c = a ++ (b ++ c).
Proof. induction a as [|x a IH]; [reflexivity | exact (f_equal (String x) IH)]. Qed.

Lemma digit_value_pretty_N_char m :
  (m < 10)%N -> digit_value (pretty_N_char m) = Some (Z.of_N m).
Proof.
  intros Hm.
  assert (m = 0 \/ m = 1 \/ m = 2 \/ m = 3 \/ m = 4 \/ m = 5 \/ m = 6 \/
          m = 7 \/ m = 8 \/ m = 9)%N as Hc by lia.
  repeat destruct Hc as [->|Hc]; try reflexivity; subst; reflexivity.
Qed.

Lemma pretty_N_go_parse x s :
  parse_digits (pretty_N_go x s) 0 = parse_digits s (Z.of_N x).
Proof.
  revert s. induction (N.lt_wf_0 x) as [x _ IH]; intros s.
  destruct (decide (x = 0)%N) as [->|Hx]; [by rewrite pretty_N_go_0|].
  rewrite pretty_N_go_step by lia.
  rewrite IH by (apply N.div_lt; lia). simpl.
  rewrite digit_value_pretty_N_char by (apply N.mod_lt; lia).
  f_equal.
  pose proof (N.div_mod x 10 ltac:(lia)) as H.
  apply (f_equal Z.of_N) in H. rewrite N2Z.inj_add, N2Z.inj_mul in H. lia.
Qed.

Lemma pretty_N_go_suffix x s : exists t, pretty_N_go x s = t ++ s.
Proof.
  revert s. induction (N.lt_wf_0 x) as [x _ IH]; intros s.
  destruct (decide (x = 0)%N) as [->|Hx]; [exists ""; by rewrite pretty_N_go_0|].
  rewrite pretty_N_go_step by lia.
  destruct (IH (x `div` 10)%N ltac:(apply N.div_lt; lia)
              (String (pretty_N_char (x `mod` 10)) s)) as [t Ht].
  exists (t ++ String (pretty_N_char (x `mod` 10)) ""). rewrite Ht.
  by rewrite str_app_assoc.
Qed.

Lemma pretty_pos_digits p :
  pretty (Zpos p) = pretty_N_go (Npos p) "" /\ pretty_N_go (Npos p) "" <> "".
Proof.
  split.
  - unfold pretty, pretty_Z, pretty_positive, pretty, pretty_N.
    by rewrite decide_False.
  - rewrite pretty_N_go_step by lia.
    destruct (pretty_N_go_suffix (Npos p `div` 10)%N
                (String (pretty_N_char (Npos p `mod` 10)) "")) as [t ->].
    destruct t; discriminate.
Qed.

Lemma parse_int_safe_digits s z :
  s <> "" -> parse_digits s 0 = Some z -> parse_int_safe s = Some z.
Proof.
  destruct s as [|c r]; intros Hne H; [congruence|].
  assert (Hd : digit_value c <> None) by (intros E; simpl in H; rewrite E in H; discriminate).
  unfold parse_int_safe.
  destruct (Ascii.eqb c "-") eqn:Em;
    [apply Ascii.eqb_eq in Em; subst; contradiction|].
  destruct (Ascii.eqb c "+") eqn:Ep;
    [apply Ascii.eqb_eq in Ep; subst; contradiction|].
  exact H.
Qed.

(** [parse_int_safe] reads back what [str] prints. *)
Lemma parse_int_safe_pretty n : parse_int_safe (pretty n) = Some n.
Proof.
  destruct n as [|p|p].
  - reflexivity.
  - destruct (pretty_pos_digits p) as [-> Hne].
    apply parse_int_safe_digits; [exact Hne|].
    by rewrite pretty_N_go_parse.
  - change (pretty (Zneg p)) with (String "-" (pretty (Zpos p))).
    destruct (pretty_pos_digits p) as [-> Hne].
    unfold parse_int_safe. simpl Ascii.eqb. cbv iota.
    unfold parse_unsigned.
    destruct (pretty_N_go (Npos p) "") as [|c r] eqn:E; [congruence|].
    rewrite <- E, pretty_N_go_parse. reflexivity.
Qed.

Lemma py_int_digits_of_parse s acc z :
  parse_digits s acc = Some z -> Config.py_int_digits s acc = Some z.
Proof.
  revert acc. induction s as [|c s IH]; intros acc H; simpl in *; [exact H|].
  destruct (digit_value c); [eauto | discriminate].
Qed.

Lemma py_int_digits_only s z :
  s <> "" -> parse_digits s 0 = Some z -> Config.py_int s = Some z.
Proof.
  destruct s as [|c r]; intros Hne H; [congruence|].
  simpl in H. destruct (digit_value c) as [v|] eqn:Ed; [|discriminate].
  unfold Config.py_int.
  destruct (Ascii.eqb c "-") eqn:Em;
    [apply Ascii.eqb_eq in Em; subst; discriminate|].
  destruct (Ascii.eqb c "+") eqn:Ep;
    [apply Ascii.eqb_eq in Ep; subst; discriminate|].
  simpl. rewrite Ed. apply py_int_digits_of_parse. exact H.
Qed.

(** [int] reads back what [str] prints. *)
Lemma py_int_pretty n : Config.py_int (pretty n) = Some n.
Proof.
  destruct n as [|p|p].
  - reflexivity.
  - destruct (pretty_pos_digits p) as [-> Hne].
    apply py_int_digits_only; [exact Hne|].
    by rewrite pretty_N_go_parse.
  - change (pretty (Zneg p)) with (String "-" (pretty (Zpos p))).
    destruct (pretty_pos_digits p) as [-> Hne].
    unfold Config.py_int. simpl Ascii.eqb. cbv iota.
    destruct (pretty_N_go (Npos p) "") as [|c r] eqn:E; [congruence|].
    pose proof (pretty_N_go_parse (Npos p) "") as Hp. rewrite E in Hp.
    simpl in Hp. destruct (digit_value c) as [v|] eqn:Ed; [|discriminate].
    simpl. rewrite Ed. rewrite (py_int_digits_of_parse r v (Zpos p)); [reflexivity|].
    exact Hp.
Qed.

(** ** Ticket keyboards *)

Lemma seq_nth_map {A B} (g : A -> B) (d : A) (l pre : list A) :
  map (fun i => g (nth i (pre ++ l) d)) (seq (length pre) (length l)) = map g l.
Proof.
  revert pre. induction l as [|a l IH]; intros pre; [reflexivity|].
  cbn [length seq map]. rewrite nth_middle. f_equal.
  specialize (IH (app pre [a])).
  rewrite length_app, <- app_assoc in IH. simpl in IH.
  by rewrite Nat.add_1_r in IH.
Qed.

Section TicketRows.

Variable f : nat -> button.
Variable m : nat.

Lemma ticket_rows_concat k s :
  (2 * s <= m)%nat -> (m <= 2 * (s + k))%nat -> (2 * (s + k) <= m + 1)%nat ->
  concat (map (ticket_row f m) (map (fun k => 2 * k)%nat (seq s k)))
    = map f (seq (2 * s) (m - 2 * s)).
Proof.
  revert s. induction k as [|k IH]; intros s H1 H2 H3.
  - replace (m - 2 * s)%nat with 0%nat by lia. reflexivity.
  - cbn [seq map concat]. unfold ticket_row at 1. cbn [flat_map].
    rewrite Nat.add_0_r.
    destruct (Nat.ltb_spec (2 * s + 1) m) as [Hlt|Hge].
    + rewrite (proj2 (Nat.ltb_lt (2 * s) m)) by lia. rewrite app_nil_r.
      rewrite (IH (S s)) by lia.
      replace (m - 2 * s)%nat with (S (S (m - 2 * S s))) by lia.
      cbn [seq map]. replace (S (2 * s)) with (2 * s + 1)%nat by lia.
      replace (S (2 * s + 1)) with (2 * S s)%nat by lia. reflexivity.
    + assert (k = 0%nat) as -> by lia. assert (m = 2 * s + 1)%nat as -> by lia.
      rewrite (proj2 (Nat.ltb_lt (2 * s) (2 * s + 1))) by lia.
      replace (2 * s + 1 - 2 * s)%nat with 1%nat by lia. reflexivity.
Qed.

End TicketRows.

Lemma half_up_bounds (len : nat) :
  (len <= 2 * ((len + 1) / 2))%nat /\ (2 * ((len + 1) / 2) <= len + 1)%nat.
Proof.
  pose proof (Nat.div_mod (len + 1) 2 ltac:(lia)) as H.
  pose proof (Nat.mod_upper_bound (len + 1) 2 ltac:(lia)) as H'. lia.
Qed.

Lemma user_tickets_keyboard_unfold a l' :
  user_tickets_inline_keyboard (a :: l') =
  map (ticket_row (fun i => ticket_button (nth i (a :: l') 0)) (length (a :: l')))
      (map (fun k => 2 * k)%nat (seq 0 ((length (a :: l') + 1) / 2))).
Proof. reflexivity. Qed.

Lemma user_tickets_keyboard_concat l :
  concat (user_tickets_inline_keyboard l) = map ticket_button l.
Proof.
  destruct l as [|a l']; [reflexivity|].
  rewrite user_tickets_keyboard_unfold.
  destruct (half_up_bounds (length (a :: l'))) as [H1 H2].
  rewrite (ticket_rows_concat (fun i => ticket_button (nth i (a :: l') 0)) (length (a :: l'))
             ((length (a :: l') + 1) / 2) 0) by lia.
  rewrite Nat.sub_0_r.
  exact (seq_nth_map ticket_button 0 (a :: l') []).
Qed.

Lemma user_tickets_keyboard_rows l :
  length (user_tickets_inline_keyboard l) = ((length l + 1) / 2)%nat /\
  Forall (fun row => length row = 1%nat \/ length row = 2%nat) (user_tickets_inline_keyboard l).
Proof.
  destruct l as [|a l']; [split; [reflexivity | constructor]|].
  rewrite user_tickets_keyboard_unfold.
  split; [by rewrite !length_map, length_seq|].
  apply List.Forall_forall. intros row Hrow.
  apply in_map_iff in Hrow as [i [<- Hi]].
  apply in_map_iff in Hi as [k [<- Hk]].
  apply in_seq in Hk.
  destruct (half_up_bounds (length (a :: l'))) as [H1 H2].
  unfold ticket_row. cbn [flat_map]. rewrite Nat.add_0_r.
  rewrite (proj2 (Nat.ltb_lt (2 * k) (length (a :: l')))) by lia.
  destruct (Nat.ltb (2 * k + 1) (length (a :: l'))); simpl; auto.
Qed.

Lemma view_callback_on_pretty uid n d :
  user_view_ticket_callback uid ("view_ticket:" ++ pretty n) d =
  match get_active_ticket_by_number n d with
  | None => mk_outcome (Alert "ticket_not_found") [CallGetActive n] d
  | Some t =>
      if Z.eqb (user_id t) uid
      then mk_outcome (PhotoReply (file_id t) "your_ticket") [CallGetActive n] d
      else mk_outcome (Alert "no_access_ticket") [CallGetActive n] d
  end.
Proof.
  unfold user_view_ticket_callback. rewrite prefix_app_self. simpl negb.
  simpl after_first_colon. cbv match. change ("" ++ pretty n) with (pretty n).
  by rewrite parse_int_safe_pretty.
Qed.

Lemma get_active_tickets_by_user_elem uid d n :
  In n (get_active_tickets_by_user uid d) ->
  exists t, tickets d !! n = Some t /\ user_id t = uid /\ status t = Active.
Proof.
  intros H. unfold get_active_tickets_by_user in H.
  apply list_elem_of_In in H. rewrite merge_sort_Permutation in H.
  by apply active_rows_elem.
Qed.

(** X1: the confirm button [lottery_inline_actions n] builds for a drawn
    ticket reaches [admin_confirm_winner], which, for an administrator,
    acts on ticket [n] itself: it looks [n] up first, and an active ticket
    [n] is rejected and the winner published. *)
Theorem lottery_confirm_button_targets_ticket admin_ids uid n d confirm_text reject_text :
  is_admin uid admin_ids = true ->
  match lottery_inline_actions n confirm_text reject_text with
  | [[cb; _]] =>
      let o := admin_confirm_winner admin_ids uid (callback_data cb) d in
      button_text cb = confirm_text /\
      route_callback (callback_data cb) = Some HConfirmWinner /\
      (exists calls, out_calls o = CallGetAnyStatus n :: calls) /\
      (forall t, tickets d !! n = Some t -> status t = Active ->
         out_reply o = Notice "winner_published" /\
         tickets (out_db o) !! n = Some (with_status t Rejected None))
  | _ => False
  end.
Proof.
  intros Ha. unfold lottery_inline_actions. cbv zeta. cbn [button_text callback_data].
  assert (Hr : route_callback ("confirm_win:" ++ pretty n) = Some HConfirmWinner)
    by (unfold route_callback; by rewrite prefix_app_self).
  unfold admin_confirm_winner. rewrite Ha, prefix_app_self. simpl negb.
  simpl after_first_colon. cbv match. change ("" ++ pretty n) with (pretty n).
  rewrite parse_int_safe_pretty. unfold get_ticket_by_number_any_status.
  split; [reflexivity|]. split; [exact Hr|]. split.
  - destruct (tickets d !! n) as [t|];
      [destruct (status_eqb (status t) Active)|]; simpl; eauto.
  - intros t Ht Hs. rewrite Ht, Hs. simpl. unfold set_ticket_status. rewrite Ht, Hs.
    simpl. split; [reflexivity|]. by rewrite lookup_insert_eq.
Qed.

Lemma lottery_confirm_button_targets_ticket_witness :
  match lottery_inline_actions 1 "✅ Confirm Winner" "❌ Reject Ticket" with
  | [[cb; _]] =>
      let o := admin_confirm_winner [7] 7 (callback_data cb) (add_ticket 1 10 None "photo1" (mk_db ∅ 1)) in
      button_text cb = "✅ Confirm Winner" /\
      route_callback (callback_data cb) = Some HConfirmWinner /\
      (exists calls, out_calls o = CallGetAnyStatus 1 :: calls) /\
      (forall t, tickets (add_ticket 1 10 None "photo1" (mk_db ∅ 1)) !! 1 = Some t ->
         status t = Active ->
         out_reply o = Notice "winner_published" /\
         tickets (out_db o) !! 1 = Some (with_status t Rejected None))
  | _ => False
  end.
Proof.
  exact (lottery_confirm_button_targets_ticket [7] 7 1 (add_ticket 1 10 None "photo1" (mk_db ∅ 1))
           "✅ Confirm Winner" "❌ Reject Ticket" eq_refl).
Defined.

(** X2: the reject button of [lottery_inline_actions] matches no callback
    handler [main] registers (only [confirm_win:] and [view_ticket:]
    are), whatever the ticket number: pressing it reaches no code. *)
Theorem lottery_reject_button_unhandled n confirm_text reject_text :
  match lottery_inline_actions n confirm_text reject_text with
  | [[_; rb]] => button_text rb = reject_text /\ route_callback (callback_data rb) = None
  | _ => False
  end.
Proof. split; reflexivity. Qed.

(** X3: [user_tickets_inline_keyboard] shows every ticket number once, in
    the order given, as a button labelled with the number whose callback
    data is [view_ticket:<n>]; the rows hold one or two buttons, and there
    are [ceil(len / 2)] of them (none for an empty list). *)
Theorem user_tickets_keyboard_layout (l : list Z) :
  let kb := user_tickets_inline_keyboard l in
  concat kb = map (fun n => mk_button ("🎟 №" ++ pretty n) ("view_ticket:" ++ pretty n)) l /\
  length kb = ((length l + 1) / 2)%nat /\
  Forall (fun row => length row = 1%nat \/ length row = 2%nat) kb.
Proof.
  cbv zeta. split; [exact (user_tickets_keyboard_concat l)|].
  exact (user_tickets_keyboard_rows l).
Qed.

(** X4: after "my tickets", each button of the keyboard built from the
    listed numbers is routed to [user_view_ticket_callback], and pressed by
    the same user it shows the photo of that user's active ticket without
    touching the store. *)
Theorem my_tickets_buttons_show_own_photo uid d nums row b :
  out_reply (handle_my_tickets uid d) = TicketList nums ->
  In row (user_tickets_inline_keyboard nums) -> In b row ->
  route_callback (callback_data b) = Some HViewTicket /\
  exists n t, tickets d !! n = Some t /\ user_id t = uid /\ status t = Active /\
    out_reply (user_view_ticket_callback uid (callback_data b) d)
      = PhotoReply (file_id t) "your_ticket" /\
    out_db (user_view_ticket_callback uid (callback_data b) d) = d.
Proof.
  intros Hr Hrow Hb.
  assert (Hnums : nums = get_active_tickets_by_user uid d).
  { unfold handle_my_tickets in Hr.
    destruct (get_active_tickets_by_user uid d); simpl in Hr; congruence. }
  assert (Hin : In b (map ticket_button nums)).
  { rewrite <- user_tickets_keyboard_concat. apply in_concat. eauto. }
  apply in_map_iff in Hin as [n [<- Hn]].
  rewrite Hnums in Hn. apply get_active_tickets_by_user_elem in Hn as (t & Ht & Hu & Hs).
  unfold ticket_button. cbn [callback_data].
  split.
  { unfold route_callback.
    change (String.prefix "confirm_win:" ("view_ticket:" ++ pretty n)) with false.
    by rewrite prefix_app_self. }
  exists n, t. rewrite view_callback_on_pretty.
  unfold get_active_ticket_by_number. rewrite Ht, Hs. simpl.
  rewrite Hu, Z.eqb_refl. repeat split; assumption.
Qed.

Lemma my_tickets_buttons_show_own_photo_witness :
  let d := add_ticket 1 10 None "photo1" (mk_db ∅ 1) in
  let b := mk_button ("🎟 №" ++ pretty 1) ("view_ticket:" ++ pretty 1) in
  route_callback (callback_data b) = Some HViewTicket /\
  exists n t, tickets d !! n = Some t /\ user_id t = 10 /\ status t = Active /\
    out_reply (user_view_ticket_callback 10 (callback_data b) d)
      = PhotoReply (file_id t) "your_ticket" /\
    out_db (user_view_ticket_callback 10 (callback_data b) d) = d.
Proof.
  apply (my_tickets_buttons_show_own_photo 10 (add_ticket 1 10 None "photo1" (mk_db ∅ 1)) [1]
           [mk_button ("🎟 №" ++ pretty 1) ("view_ticket:" ++ pretty 1)]).
  - vm_compute. reflexivity.
  - vm_compute. left. reflexivity.
  - left. reflexivity.
Defined.

(** ** Callback handlers *)

(** X5: [user_view_ticket_callback] never changes the store, and the
    only photo it ever shows is that of an active ticket owned by the
    caller; another user's ticket is never shown. *)
Theorem view_ticket_photo_only_for_owner uid data d :
  out_db (user_view_ticket_callback uid data d) = d /\
  forall fid key,
    out_reply (user_view_ticket_callback uid data d) = PhotoReply fid key ->
    exists n t, get_active_ticket_by_number n d = Some t /\ user_id t = uid /\
                file_id t = fid /\ key = "your_ticket".
Proof.
  unfold user_view_ticket_callback.
  destruct (negb (String.prefix "view_ticket:" data)); [split; [reflexivity | discriminate]|].
  destruct (after_first_colon data) as [suffix|]; [|split; [reflexivity | discriminate]].
  destruct (parse_int_safe suffix) as [num|]; [|split; [reflexivity | discriminate]].
  destruct (get_active_ticket_by_number num d) as [t|] eqn:Et;
    [|split; [reflexivity | discriminate]].
  destruct (Z.eqb (user_id t) uid) eqn:Eu; [|split; [reflexivity | discriminate]].
  split; [reflexivity|]. intros fid key [= <- <-].
  exists num, t. apply Z.eqb_eq in Eu. auto.
Qed.

(** X6: a caller who is not an administrator can neither confirm a
    winner nor archive the lottery: whatever the payload, neither handler
    calls the store or changes it, and the caller is told so. *)
Theorem non_admin_cannot_change_store admin_ids uid data d :
  is_admin uid admin_ids = false ->
  let c := admin_confirm_winner admin_ids uid data d in
  let a := admin_archive admin_ids uid d in
  out_db c = d /\ out_calls c = [] /\ out_reply c = Alert "no_rights" /\
  out_db a = d /\ out_calls a = [] /\ out_reply a = Notice "insufficient_rights".
Proof.
  intros Ha c a. subst c a. unfold admin_confirm_winner, admin_archive.
  rewrite Ha. repeat split.
Qed.

Lemma non_admin_cannot_change_store_witness :
  let c := admin_confirm_winner [7] 8 "confirm_win:1" store_after_win in
  let a := admin_archive [7] 8 store_after_win in
  out_db c = store_after_win /\ out_calls c = [] /\ out_reply c = Alert "no_rights" /\
  out_db a = store_after_win /\ out_calls a = [] /\
  out_reply a = Notice "insufficient_rights".
Proof. exact (non_admin_cannot_change_store [7] 8 "confirm_win:1" store_after_win eq_refl). Defined.

(** ** Uploads and the ticket store *)

Lemma get_active_tickets_by_user_in uid d n t :
  tickets d !! n = Some t -> user_id t = uid -> status t = Active ->
  In n (get_active_tickets_by_user uid d).
Proof.
  intros Ht Hu Hs. unfold get_active_tickets_by_user.
  apply list_elem_of_In. rewrite merge_sort_Permutation.
  apply active_rows_elem. eauto.
Qed.

Lemma set_ticket_status_lookup n st r d m t' :
  tickets (snd (set_ticket_status n st r d)) !! m = Some t' ->
  exists t, tickets d !! m = Some t /\ ticket_number t' = ticket_number t.
Proof.
  intros H. destruct (decide (m = n)) as [->|Hne].
  - unfold set_ticket_status in H.
    destruct (tickets d !! n) as [t|] eqn:E; [|simpl in H; congruence].
    destruct (status t), st; simpl in H;
      try (rewrite E in H; injection H as <-; eauto);
      rewrite lookup_insert_eq in H; injection H as <-; eauto.
  - rewrite set_ticket_status_other in H by exact Hne. eauto.
Qed.

Lemma bot_step_shape d d' :
  bot_step d d' ->
  (counter d' = counter d \/ counter d' = counter d + 1) /\
  forall m t', tickets d' !! m = Some t' ->
    (exists t, tickets d !! m = Some t /\ ticket_number t' = ticket_number t) \/
    (m = counter d + 1 /\ ticket_number t' = m /\ counter d' = counter d + 1).
Proof.
  intros Hs. destruct Hs.
  - unfold handle_upload_photo. destruct photos as [|p ps]; simpl; [split; eauto|].
    split; [right; reflexivity|]. intros m t' Hm.
    destruct (decide (m = counter d + 1)) as [->|Hne].
    + rewrite lookup_insert_eq in Hm. injection Hm as <-. right. auto.
    + rewrite lookup_insert_ne in Hm by congruence. left. eauto.
  - unfold admin_confirm_winner.
    destruct (is_admin uid admin_ids); simpl; [|split; eauto].
    destruct (String.prefix "confirm_win:" data); simpl; [|split; eauto].
    destruct (after_first_colon data) as [suffix|]; simpl; [|split; eauto].
    destruct (parse_int_safe suffix) as [num|]; simpl; [|split; eauto].
    destruct (get_ticket_by_number_any_status num d) as [t|]; simpl; [|split; eauto].
    destruct (status_eqb (status t) Active); simpl; [|split; eauto].
    rewrite set_ticket_status_counter. split; [left; reflexivity|].
    intros m t' Hm. left. exact (set_ticket_status_lookup _ _ _ _ _ _ Hm).
  - unfold user_view_ticket_callback.
    repeat (case_match; simpl); split; eauto.
  - unfold handle_my_tickets. case_match; split; eauto.
  - unfold admin_archive. destruct (is_admin uid admin_ids); simpl; [|split; eauto].
    split; [left; reflexivity|]. intros m t' Hm. rewrite lookup_empty in Hm. discriminate.
  - rewrite set_ticket_status_counter. split; [left; reflexivity|].
    intros m t' Hm. left. exact (set_ticket_status_lookup _ _ _ _ _ _ Hm).
Qed.

(** X7: a photo upload issues the number one past the counter, which no
    stored ticket of a reachable store has; the new ticket is active, owned
    by the uploader, carries the file id of the largest photo size, and is
    listed among the uploader's tickets; the counter moves to it and no
    other ticket changes. *)
Theorem upload_issues_fresh_active_ticket uid uname p ps d :
  reachable d ->
  let n := counter d + 1 in
  let d' := out_db (handle_upload_photo uid uname (p :: ps) d) in
  tickets d !! n = None /\
  tickets d' !! n = Some (mk_ticket n uid uname (largest_photo p ps).1 Active None) /\
  counter d' = n /\
  (forall m, m <> n -> tickets d' !! m = tickets d !! m) /\
  In n (get_active_tickets_by_user uid d').
Proof.
  intros Hr n d'. pose proof (reachable_numbers_issued d Hr) as Hi.
  assert (Hfresh : tickets d !! n = None).
  { destruct (tickets d !! n) as [t|] eqn:E; [|reflexivity].
    specialize (Hi n t E). subst n. lia. }
  assert (Hnew : tickets d' !! n = Some (mk_ticket n uid uname (largest_photo p ps).1 Active None))
    by (subst d' n; simpl; by rewrite lookup_insert_eq).
  split; [exact Hfresh|]. split; [exact Hnew|]. split; [reflexivity|]. split.
  - intros m Hne. subst d' n. simpl. rewrite lookup_insert_ne; [reflexivity | congruence].
  - exact (get_active_tickets_by_user_in uid d' n _ Hnew eq_refl eq_refl).
Qed.

Lemma upload_issues_fresh_active_ticket_witness :
  let n := counter store_after_win + 1 in
  let d' := out_db (handle_upload_photo 11 None (("small", 10) :: [("big", 90)]) store_after_win) in
  tickets store_after_win !! n = None /\
  tickets d' !! n = Some (mk_ticket n 11 None (largest_photo ("small", 10) [("big", 90)]).1 Active None) /\
  counter d' = n /\
  (forall m, m <> n -> tickets d' !! m = tickets store_after_win !! m) /\
  In n (get_active_tickets_by_user 11 d').
Proof.
  apply (upload_issues_fresh_active_ticket 11 None ("small", 10) [("big", 90)] store_after_win).
  eapply reach_step; [eapply reach_step; [apply reach_init | apply step_upload]|].
  apply step_confirm.
Defined.

Lemma largest_photo_go (ps : list (string * Z)) best pre post :
  Forall (fun q => q.2 < best.2) pre -> Forall (fun q => q.2 <= best.2) post ->
  exists pre' post',
    (app (app pre (best :: post)) ps
       = app pre' (fold_left (fun b q => if Z.ltb b.2 q.2 then q else b) ps best :: post')) /\
    Forall (fun q => q.2 < (fold_left (fun b q => if Z.ltb b.2 q.2 then q else b) ps best).2) pre' /\
    Forall (fun q => q.2 <= (fold_left (fun b q => if Z.ltb b.2 q.2 then q else b) ps best).2) post'.
Proof.
  revert best pre post. induction ps as [|q ps IH]; intros best pre post Hpre Hpost.
  - exists pre, post. rewrite app_nil_r. auto.
  - simpl. destruct (Z.ltb_spec best.2 q.2) as [Hlt|Hge].
    + destruct (IH q (app pre (best :: post)) [] ) as (pre' & post' & Heq & H1 & H2).
      * apply Forall_app. split.
        -- eapply Forall_impl; [exact Hpre|]. simpl. intros x Hx. lia.
        -- constructor; [lia|]. eapply Forall_impl; [exact Hpost|]. simpl. intros x Hx. lia.
      * constructor.
      * exists pre', post'. split; [|auto].
        rewrite <- Heq. by rewrite <- !app_assoc.
    + destruct (IH best pre (app post [q])) as (pre' & post' & Heq & H1 & H2).
      * exact Hpre.
      * apply Forall_app. split; [exact Hpost|]. constructor; [lia | constructor].
      * exists pre', post'. split; [|auto].
        rewrite <- Heq. rewrite <- !app_assoc. simpl. rewrite <- app_assoc. reflexivity.
Qed.

(** X8: [largest_photo] returns a photo size of the message of greatest
    size, the first such one, as Python's [max] does: every size before it
    is strictly smaller, every size after it at most as large. *)
Theorem largest_photo_first_max p ps :
  exists pre post,
    p :: ps = app pre (largest_photo p ps :: post) /\
    Forall (fun q => q.2 < (largest_photo p ps).2) pre /\
    Forall (fun q => q.2 <= (largest_photo p ps).2) post.
Proof.
  destruct (largest_photo_go ps p [] [] (List.Forall_nil _) (List.Forall_nil _))
    as (pre & post & Heq & H1 & H2).
  exists pre, post. split; [exact Heq | auto].
Qed.

(** X9: in every store the bot can reach, each stored ticket is filed
    under its own number, and that number lies between 1 and the counter:
    numbers are positive and were issued by the counter. *)
Theorem reachable_store_well_formed d :
  reachable d ->
  0 <= counter d /\
  forall n t, tickets d !! n = Some t -> ticket_number t = n /\ 1 <= n <= counter d.
Proof.
  induction 1 as [|d d' _ [Hc IH] Hs].
  - split; [simpl; lia|]. intros n t H. simpl in H. rewrite lookup_empty in H. discriminate.
  - destruct (bot_step_shape d d' Hs) as [Hcnt Hshape].
    split; [lia|]. intros n t' H.
    destruct (Hshape n t' H) as [(t & Ht & Hnum) | (-> & Hnum & Hc')].
    + destruct (IH n t Ht). split; [congruence | lia].
    + split; [exact Hnum | lia].
Qed.

Lemma reachable_store_well_formed_witness :
  0 <= counter store_after_win /\
  forall n t, tickets store_after_win !! n = Some t ->
              ticket_number t = n /\ 1 <= n <= counter store_after_win.
Proof.
  apply (reachable_store_well_formed store_after_win).
  eapply reach_step; [eapply reach_step; [apply reach_init | apply step_upload]|].
  apply step_confirm.
Defined.

(** X10: no request lowers the counter, and none raises it by more than
    one (only an upload raises it). *)
Theorem bot_step_counter_monotone d d' :
  bot_step d d' -> counter d <= counter d' <= counter d + 1.
Proof. intros Hs. destruct (bot_step_shape d d' Hs) as [[H|H] _]; lia. Qed.

Lemma bot_step_counter_monotone_witness :
  counter store_after_win <=
    counter (out_db (handle_upload_photo 11 None [("p", 1)] store_after_win)) <=
    counter store_after_win + 1.
Proof. apply bot_step_counter_monotone. apply step_upload. Defined.

(** ** Dispatching text messages *)

Lemma text_in_high_lead c r texts :
  (224 <= nat_of_ascii c)%nat -> forallb lead_byte_below texts = true ->
  text_in (String c r) texts = false.
Proof.
  intros Hc Hall. unfold text_in. induction texts as [|s texts IH]; [reflexivity|].
  simpl in Hall. apply andb_prop in Hall as [Hs Hall].
  change (existsb (String.eqb (String c r)) (s :: texts)) with
    (String.eqb (String c r) s || existsb (String.eqb (String c r)) texts).
  rewrite (IH Hall), orb_false_r.
  destruct s as [|c' r']; [reflexivity|].
  simpl in Hs. apply Nat.ltb_lt in Hs.
  destruct (String.eqb_spec (String c r) (String c' r')) as [E|E]; [|reflexivity].
  injection E as -> _. lia.
Qed.

Lemma split_at_any_head stops c r :
  fst (split_at_any stops (String c r)) = "" \/
  exists a, fst (split_at_any stops (String c r)) = String c a.
Proof.
  simpl. destruct (existsb (Ascii.eqb c) stops); [left; reflexivity|].
  destruct (split_at_any stops r) as [a b]. right. exists a. reflexivity.
Qed.

Lemma command_start_high_lead c r :
  (224 <= nat_of_ascii c)%nat -> command_start (String c r) = false.
Proof.
  intros Hc. unfold command_start. cbv zeta.
  destruct (split_at_any_head [" "; "009"; "010"]%char c r) as [E | [a E]]; rewrite E;
    [reflexivity|].
  destruct (String.eqb_spec (String c a) "/start") as [E'|_];
    [injection E' as -> _; cbv in Hc; lia|].
  cbn [String.prefix orb]. destruct (ascii_dec "/" c) as [<-|]; [cbv in Hc; lia|].
  reflexivity.
Qed.

(** X11: [main] registers its text handlers with double-encoded button
    texts (each begins with the byte 0xC3 or 0xC4), so no text beginning
    with a character of three or four UTF-8 bytes, as every emoji is,
    reaches a text handler; in particular no default button of [user_menu],
    [admin_menu] or [back_menu] does. *)
Theorem menu_texts_never_routed :
  (forall c r, (224 <= nat_of_ascii c)%nat -> route_text (String c r) = None) /\
  (forall menu row b, In menu default_menus -> In row menu -> In b row ->
                      route_text b = None).
Proof.
  assert (Hhigh : forall c r, (224 <= nat_of_ascii c)%nat -> route_text (String c r) = None).
  { intros c r Hc. unfold route_text.
    rewrite command_start_high_lead by exact Hc.
    rewrite !text_in_high_lead by (exact Hc || reflexivity). reflexivity. }
  split; [exact Hhigh|].
  intros menu row b Hm Hr Hb.
  assert (Hall : forallb (forallb (forallb (fun s => negb (lead_byte_below s)))) default_menus = true)
    by reflexivity.
  rewrite forallb_forall in Hall. specialize (Hall menu Hm).
  rewrite forallb_forall in Hall. specialize (Hall row Hr).
  rewrite forallb_forall in Hall. specialize (Hall b Hb).
  destruct b as [|c r]; [discriminate|].
  apply Hhigh. simpl in Hall. apply negb_true_iff, Nat.ltb_ge in Hall. exact Hall.
Qed.

(** ** Languages *)

(** X12: [get_text] never uses the preference /start saves: /start
    writes the database store, while [get_text] reads [language.py]'s
    in-memory map, which nothing writes.  So in every state the bot
    reaches, every user gets the English text of a key English has,
    whatever language the user saved. *)
Theorem get_text_ignores_saved_language {V} (render : V -> string -> result string)
    tr f s uid key kwargs text :
  lang_state_reachable tr s ->
  tr !! DEFAULT_LANGUAGE ≫= (fun m => m !! key) = Some text ->
  mem_get_user_language (mem_langs s) uid = DEFAULT_LANGUAGE /\
  get_text render (Some tr) f (mem_langs s) uid key kwargs
    = try_except (py_format render text kwargs) (fun _ => Ok text).
Proof.
  intros Hr Ht.
  assert (Hm : mem_langs s = ∅) by (induction Hr; [reflexivity | exact IHHr]).
  rewrite Hm. unfold get_text, mem_get_user_language. rewrite lookup_empty. simpl.
  split; [reflexivity|]. rewrite Ht. reflexivity.
Qed.

Lemma get_text_ignores_saved_language_witness :
  let tr : translations := {[ "english" := {[ "welcome" := "Welcome" ]};
                              "russian" := {[ "welcome" := "Привет" ]} ]} in
  let s := mk_lang_state (handle_start_command tr ∅ (mk_tg_user 1 None) (Some "ru")) ∅ in
  db_langs s !! 1 = Some "russian" /\
  (mem_get_user_language (mem_langs s) 1 = DEFAULT_LANGUAGE /\
   get_text render_plain (Some tr) FileMissing (mem_langs s) 1 "welcome" ∅
     = try_except (py_format render_plain "Welcome" ∅) (fun _ => Ok "Welcome")).
Proof.
  split; [vm_compute; reflexivity|].
  apply (get_text_ignores_saved_language render_plain
           {[ "english" := {[ "welcome" := "Welcome" ]}; "russian" := {[ "welcome" := "Привет" ]} ]}
           FileMissing _ 1 "welcome" ∅ "Welcome").
  - exact (lsr_start _ (mk_lang_state ∅ ∅) (mk_tg_user 1 None) (Some "ru") (lsr_init _)).
  - vm_compute. reflexivity.
Defined.

Lemma ascii_lower_idem c : ascii_lower (ascii_lower c) = ascii_lower c.
Proof.
  unfold ascii_lower. cbv zeta.
  destruct ((65 <=? nat_of_ascii c)%nat && (nat_of_ascii c <=? 90)%nat) eqn:E.
  - apply andb_prop in E as [E1 E2]. apply Nat.leb_le in E1, E2.
    rewrite nat_ascii_embedding by lia.
    replace ((65 <=? nat_of_ascii c + 32)%nat && (nat_of_ascii c + 32 <=? 90)%nat) with false;
      [reflexivity|].
    symmetry. apply andb_false_iff. right. apply Nat.leb_gt. lia.
  - rewrite E. reflexivity.
Qed.

Lemma str_lower_idem s : str_lower (str_lower s) = str_lower s.
Proof. induction s as [|c s IH]; simpl; [reflexivity | by rewrite ascii_lower_idem, IH]. Qed.

(** X13: [get_user_lang] answers a language that is loaded, or the
    default language; and it ignores the case of ASCII letters in the
    language code. *)
Theorem get_user_lang_loaded_or_default tr code :
  (get_user_lang tr code = DEFAULT_LANGUAGE \/ is_Some (tr !! get_user_lang tr code)) /\
  (forall c, get_user_lang tr (Some c) = get_user_lang tr (Some (str_lower c))).
Proof.
  split.
  - unfold get_user_lang.
    destruct (truthy code) as [c|]; [|left; reflexivity].
    destruct (assoc (str_lower c) LANGUAGE_MAPPING) as [v|]; [|left; reflexivity].
    case_bool_decide; [right; assumption | left; reflexivity].
  - intros [|a c]; [reflexivity|]. unfold get_user_lang.
    change (truthy (Some (String a c))) with (Some (String a c)).
    change (str_lower (String a c)) with (String (ascii_lower a) (str_lower c)).
    change (truthy (Some (String (ascii_lower a) (str_lower c))))
      with (Some (String (ascii_lower a) (str_lower c))).
    change (String (ascii_lower a) (str_lower c)) with (str_lower (String a c)).
    cbv iota beta. rewrite str_lower_idem. reflexivity.
Qed.

(** X14: at a user's first /start, with no preference stored, the
    language detected from the locale hint is stored; no other user's
    preference changes, at a first /start or any other. *)
Theorem start_first_contact_stores_detected tr st u code :
  st !! tg_id u = None ->
  handle_start_command tr st u code !! tg_id u = Some (get_user_lang tr code) /\
  forall v, v <> tg_id u -> handle_start_command tr st u code !! v = st !! v.
Proof.
  intros Hn. unfold handle_start_command. rewrite Hn. simpl truthy. cbv iota.
  split; [apply lookup_insert_eq|].
  intros v Hv. by rewrite lookup_insert_ne by congruence.
Qed.

Lemma start_first_contact_stores_detected_witness :
  handle_start_command ∅ ∅ (mk_tg_user 1 None) (Some "ES") !! 1 = Some (get_user_lang ∅ (Some "ES")) /\
  forall v, v <> 1 -> handle_start_command ∅ ∅ (mk_tg_user 1 None) (Some "ES") !! v = (∅ : language_store) !! v.
Proof. exact (start_first_contact_stores_detected ∅ ∅ (mk_tg_user 1 None) (Some "ES") eq_refl). Defined.


(** ** Formatting *)

Lemma format_go_brace_free {V} (render : V -> string -> result string) fuel kwargs s :
  brace_free s = true -> (String.length s < fuel)%nat ->
  format_go render fuel kwargs s = Ok s.
Proof.
  revert fuel. induction s as [|c s IH]; intros fuel Hb Hl;
    (destruct fuel as [|fuel]; [simpl in Hl; lia|]); [reflexivity|].
  simpl in Hb. apply andb_prop in Hb as [Hb Hs]. apply andb_prop in Hb as [H1 H2].
  apply negb_true_iff in H1, H2.
  simpl. rewrite H1, H2. rewrite IH by (simpl in Hl; lia || exact Hs). reflexivity.
Qed.

(** X16: a text without braces is its own formatting, whatever the
    keyword arguments; so [get_text] returns such a translation verbatim. *)
Theorem brace_free_text_unchanged {V} (render : V -> string -> result string) text kwargs :
  brace_free text = true ->
  py_format render text kwargs = Ok text /\
  forall tr f user_languages uid key,
    tr !! mem_get_user_language user_languages uid ≫= (fun m => m !! key) = Some text ->
    get_text render (Some tr) f user_languages uid key kwargs = Ok text.
Proof.
  intros Hb.
  assert (Hf : py_format render text kwargs = Ok text)
    by (apply format_go_brace_free; [exact Hb | lia]).
  split; [exact Hf|].
  intros tr f ul uid key Ht. unfold get_text. simpl. rewrite Ht. rewrite Hf. reflexivity.
Qed.

Lemma brace_free_text_unchanged_witness :
  py_format render_plain "Bot Updates" ∅ = Ok "Bot Updates" /\
  forall tr f user_languages uid key,
    tr !! mem_get_user_language user_languages uid ≫= (fun m => m !! key) = Some "Bot Updates" ->
    get_text render_plain (Some tr) f user_languages uid key ∅ = Ok "Bot Updates".
Proof. exact (brace_free_text_unchanged render_plain "Bot Updates" ∅ eq_refl). Defined.










(** ** Configuration *)

Lemma digit_char_plain c v :
  digit_value c = Some v -> Config.is_space c = false /\ c <> ","%char.
Proof.
  unfold digit_value. cbv zeta.
  destruct ((48 <=? nat_of_ascii c)%nat && (nat_of_ascii c <=? 57)%nat) eqn:E; [|discriminate].
  intros _. apply andb_prop in E as [E1 E2]. apply Nat.leb_le in E1, E2. split.
  - unfold Config.is_space. apply orb_false_iff. split; apply andb_false_iff; right;
      apply Nat.leb_gt; lia.
  - intros ->. cbv in E1. lia.
Qed.

Lemma parse_digits_chars s acc z :
  parse_digits s acc = Some z ->
  List.Forall (fun c => Config.is_space c = false /\ c <> ","%char) (list_ascii_of_string s).
Proof.
  revert acc. induction s as [|c s IH]; intros acc H; [constructor|].
  simpl in H. destruct (digit_value c) as [v|] eqn:Ed; [|discriminate].
  constructor; [exact (digit_char_plain c v Ed) | exact (IH _ H)].
Qed.

Lemma pretty_chars (n : Z) :
  List.Forall (fun c => Config.is_space c = false /\ c <> ","%char) (list_ascii_of_string (pretty n)) /\
  pretty n <> "".
Proof.
  assert (Hpos : forall p,
    List.Forall (fun c => Config.is_space c = false /\ c <> ","%char) (list_ascii_of_string (pretty (Zpos p))) /\
    pretty (Zpos p) <> "").
  { intros p. destruct (pretty_pos_digits p) as [-> Hne]. split; [|exact Hne].
    apply (parse_digits_chars _ 0 (Z.of_N (Npos p))).
    rewrite pretty_N_go_parse. reflexivity. }
  destruct n as [|p|p].
  - split; [|discriminate]. repeat constructor; discriminate.
  - exact (Hpos p).
  - change (pretty (Zneg p)) with (String "-" (pretty (Zpos p))).
    destruct (Hpos p) as [Hf _]. split; [|discriminate].
    constructor; [split; [reflexivity | discriminate] | exact Hf].
Qed.

Lemma strip_no_space s :
  List.Forall (fun c => Config.is_space c = false /\ c <> ","%char) (list_ascii_of_string s) ->
  Config.strip s = s.
Proof.
  intros H. unfold Config.strip.
  assert (Hl : Config.lstrip s = s).
  { destruct s as [|c s]; [reflexivity|]. inversion H as [|? ? [Hc _] _]; subst.
    simpl. rewrite Hc. reflexivity. }
  rewrite Hl. clear Hl. induction s as [|c s IH]; [reflexivity|].
  inversion H as [|? ? [Hc _] Hs]; subst.
  simpl. rewrite (IH Hs), Hc, andb_false_r. reflexivity.
Qed.

Lemma split_sep_no_comma s :
  List.Forall (fun c => Config.is_space c = false /\ c <> ","%char) (list_ascii_of_string s) ->
  Config.split_sep ","%char s = [s].
Proof.
  induction s as [|c s IH]; intros H; [reflexivity|].
  inversion H as [|? ? [_ Hc] Hs]; subst. simpl.
  destruct (Ascii.eqb_spec c ","%char); [contradiction|]. rewrite (IH Hs). reflexivity.
Qed.

Lemma split_sep_comma s rest :
  List.Forall (fun c => Config.is_space c = false /\ c <> ","%char) (list_ascii_of_string s) ->
  Config.split_sep ","%char (s ++ String ","%char rest) = s :: Config.split_sep ","%char rest.
Proof.
  induction s as [|c s IH]; intros H; [reflexivity|].
  inversion H as [|? ? [_ Hc] Hs]; subst.
  change (String c s ++ String ","%char rest) with (String c (s ++ String ","%char rest)).
  simpl. destruct (Ascii.eqb_spec c ","%char); [contradiction|]. rewrite (IH Hs). reflexivity.
Qed.

Lemma split_sep_concat_pretty (x : Z) (ids : list Z) :
  Config.split_sep ","%char (String.concat "," (map pretty (x :: ids))) = map pretty (x :: ids).
Proof.
  revert x. induction ids as [|y ids IH]; intros x.
  - apply split_sep_no_comma, pretty_chars.
  - change (String.concat "," (map pretty (x :: y :: ids)))
      with (pretty x ++ String ","%char (String.concat "," (map pretty (y :: ids)))).
    rewrite split_sep_comma by apply pretty_chars. rewrite IH. reflexivity.
Qed.

Lemma parse_admin_ids_fold (ids acc : list Z) :
  fold_left
    (fun acc part =>
       let! result := acc in
       let part := Config.strip part in
       if String.eqb part "" then Ok result
       else match Config.py_int part with
            | Some z => Ok (app result [z])
            | None => Err (ValueError Config.admin_ids_error)
            end)
    (map pretty ids) (Ok acc) = Ok (app acc ids).
Proof.
  revert acc. induction ids as [|x ids IH]; intros acc; [by rewrite app_nil_r|].
  simpl map. simpl fold_left. destruct (pretty_chars x) as [Hf Hne].
  rewrite (strip_no_space _ Hf).
  destruct (String.eqb_spec (pretty x) ""); [contradiction|].
  rewrite py_int_pretty, IH, <- app_assoc. reflexivity.
Qed.

(** X18: [_parse_admin_ids] reads back any list of ids written as
    [str] of each, joined with commas: it returns the same ids in the
    same order, duplicates and negative ids included. *)
Theorem parse_admin_ids_round_trip (ids : list Z) :
  Config._parse_admin_ids (String.concat "," (map pretty ids)) = Ok ids.
Proof.
  destruct ids as [|x ids]; [reflexivity|].
  unfold Config._parse_admin_ids.
  destruct (String.eqb_spec (String.concat "," (map pretty (x :: ids))) "") as [E|_].
  - exfalso. pose proof (split_sep_concat_pretty x ids) as Hs. rewrite E in Hs.
    simpl in Hs. injection Hs as Hx _. destruct (pretty_chars x) as [_ Hne]. congruence.
  - rewrite split_sep_concat_pretty. exact (parse_admin_ids_fold (x :: ids) []).
Qed.

Lemma getenv_insert_ne env k k' v :
  k' <> k -> Config.getenv (<[k := v]> env) k' = Config.getenv env k'.
Proof. intros H. unfold Config.getenv. by rewrite lookup_insert_ne by congruence. Qed.

(** X19: settings that [load_settings] returns have a non-empty token, a
    non-empty list of administrators read by [_parse_admin_ids] from the
    stripped [ADMIN_IDS], and the group chat id [int()] reads from the
    stripped [GROUP_CHAT_ID]; and [LOG_CHANNEL_ID] never makes loading
    fail: with any value of it, the same token, administrators and group
    chat id load. *)
Theorem load_settings_success env s :
  Config.load_settings env = Ok s ->
  Config.bot_token s <> "" /\ Config.admin_ids s <> [] /\
  Config._parse_admin_ids (Config.strip (Config.getenv env "ADMIN_IDS")) = Ok (Config.admin_ids s) /\
  Config.py_int (Config.strip (Config.getenv env "GROUP_CHAT_ID")) = Some (Config.group_chat_id s) /\
  (forall v, exists s', Config.load_settings (<["LOG_CHANNEL_ID" := v]> env) = Ok s' /\
     Config.bot_token s' = Config.bot_token s /\ Config.admin_ids s' = Config.admin_ids s /\
     Config.group_chat_id s' = Config.group_chat_id s).
Proof.
  intros H. unfold Config.load_settings in H |- *. cbv zeta in H |- *.
  destruct (String.eqb_spec (if String.eqb (Config.strip (Config.getenv env "BOT_TOKEN")) ""
                             then Config.strip (Config.getenv env "TOKEN")
                             else Config.strip (Config.getenv env "BOT_TOKEN")) "") as [Et|Et];
    [discriminate|].
  destruct (String.eqb (Config.strip (Config.getenv env "GROUP_CHAT_ID")) "") eqn:Eg;
    [discriminate|].
  destruct (Config.py_int (Config.strip (Config.getenv env "GROUP_CHAT_ID"))) as [g|] eqn:Ep;
    [|discriminate].
  destruct (Config._parse_admin_ids (Config.strip (Config.getenv env "ADMIN_IDS"))) as [ids|e] eqn:Ea;
    [|discriminate].
  simpl in H. destruct ids as [|i ids]; [discriminate|]. injection H as <-. simpl.
  split; [exact Et|]. split; [discriminate|]. split; [reflexivity|]. split; [reflexivity|].
  intros v.
  rewrite !(getenv_insert_ne env "LOG_CHANNEL_ID" "BOT_TOKEN" v),
          !(getenv_insert_ne env "LOG_CHANNEL_ID" "TOKEN" v),
          !(getenv_insert_ne env "LOG_CHANNEL_ID" "GROUP_CHAT_ID" v),
          !(getenv_insert_ne env "LOG_CHANNEL_ID" "ADMIN_IDS" v),
          !(getenv_insert_ne env "LOG_CHANNEL_ID" "CHANNEL_USERNAME" v),
          !(getenv_insert_ne env "LOG_CHANNEL_ID" "UPDATES_CHANNEL_USERNAME" v) by discriminate.
  destruct (String.eqb_spec (if String.eqb (Config.strip (Config.getenv env "BOT_TOKEN")) ""
                             then Config.strip (Config.getenv env "TOKEN")
                             else Config.strip (Config.getenv env "BOT_TOKEN")) "") as [Et'|_];
    [contradiction|].
  rewrite Eg, Ep, Ea. simpl. eexists. split; [reflexivity|]. simpl. auto.
Qed.

Lemma load_settings_success_witness :
  let env : Config.environment :=
    {[ "BOT_TOKEN" := " 123:abc "; "GROUP_CHAT_ID" := "-100"; "ADMIN_IDS" := "7, 8" ]} in
  let s := Config.mk_settings "123:abc" [7; 8] (-100) None None None in
  Config.load_settings env = Ok s /\
  (Config.bot_token s <> "" /\ Config.admin_ids s <> [] /\
   Config._parse_admin_ids (Config.strip (Config.getenv env "ADMIN_IDS")) = Ok (Config.admin_ids s) /\
   Config.py_int (Config.strip (Config.getenv env "GROUP_CHAT_ID")) = Some (Config.group_chat_id s) /\
   (forall v, exists s', Config.load_settings (<["LOG_CHANNEL_ID" := v]> env) = Ok s' /\
      Config.bot_token s' = Config.bot_token s /\ Config.admin_ids s' = Config.admin_ids s /\
      Config.group_chat_id s' = Config.group_chat_id s)).
Proof.
  intros env s.
  assert (H : Config.load_settings env = Ok s) by (vm_compute; reflexivity).
  split; [exact H | exact (load_settings_success env s H)].
Defined.

(** ** The welcome keyboard *)

Lemma lstrip_char_head ch s r : lstrip_char ch s <> String ch r.
Proof.
  induction s as [|c s IH]; [discriminate|]. simpl.
  destruct (Ascii.eqb_spec c ch); [exact IH|]. congruence.
Qed.

(** X20: the welcome keyboard has one row per channel name that is set
    and not empty, in the order channel, updates channel; each row is one
    button whose link is [https://t.me/] followed by a name that does not
    begin with ['@']; and a leading ['@'] on a non-empty name changes
    nothing. *)
Theorem welcome_keyboard_links cu uu add_me_text updates_text :
  length (get_welcome_inline_keyboard cu uu add_me_text updates_text)
    = (match truthy cu with Some _ => 1 | None => 0 end +
       match truthy uu with Some _ => 1 | None => 0 end)%nat /\
  (forall row, In row (get_welcome_inline_keyboard cu uu add_me_text updates_text) ->
     exists b name, row = [b] /\ url b = "https://t.me/" ++ name /\
                    forall r, name <> String "@" r) /\
  (forall n, n <> "" ->
     get_welcome_inline_keyboard (Some (String "@" n)) uu add_me_text updates_text
       = get_welcome_inline_keyboard (Some n) uu add_me_text updates_text /\
     get_welcome_inline_keyboard cu (Some (String "@" n)) add_me_text updates_text
       = get_welcome_inline_keyboard cu (Some n) add_me_text updates_text).
Proof.
  split; [|split].
  - unfold get_welcome_inline_keyboard. rewrite length_app.
    destruct (truthy cu), (truthy uu); reflexivity.
  - intros row Hr. unfold get_welcome_inline_keyboard in Hr. apply in_app_or in Hr.
    destruct Hr as [Hr | Hr];
      [destruct (truthy cu) as [n|] | destruct (truthy uu) as [n|]];
      simpl in Hr; try contradiction; (destruct Hr as [<- | []]; eexists _, (lstrip_char "@" n);
       split; [reflexivity | split; [reflexivity | apply lstrip_char_head]]).
  - intros n Hn.
    assert (Ht : forall s, s <> "" -> truthy (Some s) = Some s)
      by (intros [|c s] Hs; [congruence | reflexivity]).
    unfold get_welcome_inline_keyboard.
    rewrite !(Ht (String "@" n)) by discriminate. rewrite !(Ht n) by exact Hn.
    split; reflexivity.
Qed.

(** ** Draw coordination *)

(** X21: from the initial state, under either lock and any schedule of
    two concurrent [admin_start_draw] calls, the two never draw at the
    same time, and [draw_lock] is held exactly while one of them draws. *)
Theorem draw_lock_mutual_exclusion k log_suspends sched s :
  draw_run k log_suspends sched draw_init = Some s ->
  ~ (task_a s = DDrawing /\ task_b s = DDrawing) /\
  (lock_held s = true <-> (task_a s = DDrawing \/ task_b s = DDrawing)).
Proof.
  intros H.
  assert (Hi : draw_excl draw_init).
  { unfold draw_excl; simpl. split; [split; [discriminate | intros [E|E]; discriminate] |].
    intros [E _]; discriminate. }
  destruct (draw_run_excl k log_suspends sched draw_init s Hi H) as [H1 H2].
  split; assumption.
Qed.

Lemma draw_lock_mutual_exclusion_witness :
  draw_run NonBlockingLock true race_schedule draw_init
    = Some (mk_draw_sys true DDrawing (DDone DrawError)) /\
  (~ (task_a (mk_draw_sys true DDrawing (DDone DrawError)) = DDrawing /\
      task_b (mk_draw_sys true DDrawing (DDone DrawError)) = DDrawing) /\
   (lock_held (mk_draw_sys true DDrawing (DDone DrawError)) = true <->
    (task_a (mk_draw_sys true DDrawing (DDone DrawError)) = DDrawing \/
     task_b (mk_draw_sys true DDrawing (DDone DrawError)) = DDrawing))).
Proof.
  assert (H : draw_run NonBlockingLock true race_schedule draw_init
                = Some (mk_draw_sys true DDrawing (DDone DrawError))) by (vm_compute; reflexivity).
  split; [exact H | exact (draw_lock_mutual_exclusion NonBlockingLock true race_schedule _ H)].
Defined.




(** ** What [get_text] raises *)

Lemma format_field_plain_exn kwargs fld e :
  format_field render_plain kwargs fld = Err e -> is_exception e = true.
Proof.
  unfold format_field.
  destruct (split_at_any [":"; "!"]%char fld) as [name tail].
  destruct (split_at_any ["."; "["]%char name) as [arg chain].
  destruct (String.eqb arg "" || all_digits arg); [intros [= <-]; reflexivity|].
  destruct (kwargs !! arg) as [v|]; [|intros [= <-]; reflexivity].
  unfold render_plain. destruct (String.eqb (chain ++ tail) ""); [discriminate|].
  intros [= <-]. reflexivity.
Qed.

Lemma format_go_plain_exn fuel kwargs s e :
  format_go render_plain fuel kwargs s = Err e -> is_exception e = true.
Proof.
  revert s e. induction fuel as [|fuel IH]; intros s e H; [discriminate|].
  destruct s as [|c s]; [discriminate|].
  cbn [format_go] in H. unfold bind in H.
  repeat match type of H with
  | Ok _ = Err _ => discriminate
  | Err _ = Err _ => injection H as <-; first [reflexivity | eauto using format_field_plain_exn]
  | context [match format_go render_plain fuel kwargs ?x with Ok _ => _ | Err _ => _ end] =>
      let E := fresh "E" in destruct (format_go render_plain fuel kwargs x) eqn:E
  | context [match format_field render_plain kwargs ?x with Ok _ => _ | Err _ => _ end] =>
      let E := fresh "E" in destruct (format_field render_plain kwargs x) eqn:E
  | context [match take_field ?x 0 with Some _ => _ | None => _ end] =>
      destruct (take_field x 0) as [[? ?]|]
  | context [if ?b then _ else _] => destruct b
  | context [match ?x with EmptyString => _ | String _ _ => _ end] => destruct x
  end.
Qed.



(** ** /settings *)

Lemma log_user_action_channel env l l' u action language info :
  channel_of l = channel_of l' ->
  log_user_action env l u action language info = log_user_action env l' u action language info.
Proof. intros H. unfold log_user_action. by rewrite H. Qed.

Lemma log_channel_shown l l' :
  channel_of l = channel_of l' ->
  match l with Some z => if Z.eqb z 0 then "Not set" else pretty z | None => "Not set" end =
  match l' with Some z => if Z.eqb z 0 then "Not set" else pretty z | None => "Not set" end.
Proof.
  unfold channel_of.
  destruct l as [z|], l' as [z'|]; try (destruct (Z.eqb z 0)); try (destruct (Z.eqb z' 0));
    congruence.
Qed.

(** X23: the /settings reply depends on the settings only through the
    administrator ids, the first ten characters of the token and whether
    and where a log channel is set: the group chat id, the channel names
    and the rest of the token never reach it, and an unset log channel and
    channel 0 read the same.  Without a sender the handler answers its
    error text. *)
Theorem check_settings_reveals_little lenv cache f user_languages s s' user :
  Config.admin_ids s = Config.admin_ids s' ->
  substring 0 10 (Config.bot_token s) = substring 0 10 (Config.bot_token s') ->
  channel_of (Config.log_channel_id s) = channel_of (Config.log_channel_id s') ->
  check_settings lenv cache f user_languages s user = check_settings lenv cache f user_languages s' user /\
  check_settings lenv cache f user_languages s None = Ok "Error checking settings".
Proof.
  intros Ha Ht Hl. split; [|reflexivity].
  destruct user as [u|]; [|reflexivity].
  unfold check_settings. rewrite Ha.
  destruct (negb (is_admin (tg_id u) (Config.admin_ids s'))); [reflexivity|].
  unfold log_admin_action. rewrite (log_user_action_channel _ _ _ _ _ _ _ Hl).
  unfold settings_kwargs. rewrite Ha, Ht, (log_channel_shown _ _ Hl). reflexivity.
Qed.

Lemma check_settings_reveals_little_witness :
  let s := Config.mk_settings "1234567890:AAAA" [7] (-100) None (Some "chan") None in
  let s' := Config.mk_settings "1234567890:BBBB" [7] (-200) (Some 0) None (Some "upd") in
  let lenv := mk_log_env (Ok "2026-01-01") (fun _ _ => Ok tt) in
  check_settings lenv None FileMissing ∅ s (Some (mk_tg_user 7 None))
    = check_settings lenv None FileMissing ∅ s' (Some (mk_tg_user 7 None)) /\
  check_settings lenv None FileMissing ∅ s None = Ok "Error checking settings".
Proof.
  exact (check_settings_reveals_little (mk_log_env (Ok "2026-01-01") (fun _ _ => Ok tt))
           None FileMissing ∅
           (Config.mk_settings "1234567890:AAAA" [7] (-100) None (Some "chan") None)
           (Config.mk_settings "1234567890:BBBB" [7] (-200) (Some 0) None (Some "upd"))
           (Some (mk_tg_user 7 None)) eq_refl eq_refl eq_refl).
Defined.

(** ** The main menu *)

Lemma get_text_plain_exn cache f user_languages uid key kwargs e :
  get_text render_plain cache f user_languages uid key kwargs = Err e -> is_exception e = true.
Proof.
  unfold get_text. destruct (load_translations cache f) as [tr|e'] eqn:El; simpl.
  - destruct (match tr !! mem_get_user_language user_languages uid ≫= (fun m => m !! key) with
              | Some text => Some text
              | None => tr !! DEFAULT_LANGUAGE ≫= (fun m => m !! key)
              end) as [text|]; [|discriminate].
    unfold try_except. destruct (py_format render_plain text kwargs) as [v|e'] eqn:Ef;
      [discriminate|].
    rewrite (format_go_plain_exn _ _ _ _ Ef). discriminate.
  - intros [= <-]. destruct cache; [discriminate|].
    destruct f as [| | |msg]; try discriminate. injection El as <-. reflexivity.
Qed.

Lemma log_user_action_ok env l u action language info :
  raises_only_exceptions env -> log_user_action env l u action language info = Ok tt.
Proof.
  intros [Hn Hs]. unfold log_user_action.
  destruct (env_now env) as [ts|e] eqn:En; cbn [bind].
  - destruct (channel_of l) as [ch|]; [|reflexivity].
    match goal with |- context [env_send env ch ?m] =>
      destruct (env_send env ch m) as [[]|e] eqn:Es end; [reflexivity|].
    cbn [try_except]. rewrite (Hs _ _ _ Es). reflexivity.
  - cbn [try_except]. rewrite (Hn _ eq_refl). reflexivity.
Qed.

Ltac settle_get_text :=
  repeat match goal with
  | |- context [get_text render_plain ?c ?f ?ul ?uid ?k ?kw] =>
      let E := fresh "E" in
      destruct (get_text render_plain c f ul uid k kw) eqn:E; cbn [bind];
      try (cbn [try_except]; rewrite (get_text_plain_exn _ _ _ _ _ _ _ E))
  end.

(** X24: with a logger and a store that raise only [Exception]s,
    [start_menu] stays silent without a sender and otherwise always
    answers with a keyboard; a non-administrator always gets the three-row
    user menu, never the administrator's.  When the translations cannot be
    read, every caller gets "Main Menu" with the default user menu, none
    of whose buttons reaches a handler. *)
Theorem start_menu_replies lenv cache f user_languages s saved u :
  raises_only_exceptions lenv ->
  (forall e, saved = Err e -> is_exception e = true) ->
  start_menu lenv cache f user_languages s saved None = Ok MenuSilent /\
  (exists text kb,
     start_menu lenv cache f user_languages s saved (Some u) = Ok (MenuAnswer text kb) /\
     (is_admin (tg_id u) (Config.admin_ids s) = false -> exists a b c, kb = user_menu a b c)) /\
  (cache = None -> (exists m, f = FileUnreadable m) ->
     start_menu lenv cache f user_languages s saved (Some u)
       = Ok (MenuAnswer "Main Menu"
               (user_menu "📸 Upload New Photo" "🎟 View My Lottery Tickets" "⬅️ Back to Menu")) /\
     forall row b,
       In row (user_menu "📸 Upload New Photo" "🎟 View My Lottery Tickets" "⬅️ Back to Menu") ->
       In b row -> route_text b = None).
Proof.
  intros Hl Hs. split; [reflexivity|]. split.
  - unfold start_menu. rewrite log_user_action_ok by exact Hl. cbn [bind].
    destruct saved as [v|e] eqn:Esv; cbn [bind];
      [|cbn [try_except]; rewrite (Hs e eq_refl);
        eexists _, _; split; [reflexivity | intros _; eauto]].
    destruct (is_admin (tg_id u) (Config.admin_ids s)) eqn:Ea; settle_get_text;
      (eexists _, _; split; [reflexivity | try discriminate; intros _; eauto]).
  - intros -> [m ->]. split.
    + unfold start_menu. rewrite log_user_action_ok by exact Hl. cbn [bind].
      destruct saved as [v|e] eqn:Esv; cbn [bind];
        [|cbn [try_except]; rewrite (Hs e eq_refl); reflexivity].
      destruct (is_admin (tg_id u) (Config.admin_ids s)); reflexivity.
    + intros row b Hr Hb. simpl in Hr.
      destruct Hr as [<- | [<- | [<- | []]]]; destruct Hb as [<- | []]; reflexivity.
Qed.

Lemma start_menu_replies_witness :
  let lenv := mk_log_env (Ok "2026-01-01") (fun _ _ => Ok tt) in
  let s := Config.mk_settings "123:abc" [7] (-100) None None None in
  raises_only_exceptions lenv /\
  (forall e, (Ok None : result (option string)) = Err e -> is_exception e = true) /\
  (start_menu lenv None (FileUnreadable "denied") ∅ s (Ok None) None = Ok MenuSilent /\
  (exists text kb,
     start_menu lenv None (FileUnreadable "denied") ∅ s (Ok None) (Some (mk_tg_user 8 None))
       = Ok (MenuAnswer text kb) /\
     (is_admin 8 (Config.admin_ids s) = false -> exists a b c, kb = user_menu a b c)) /\
  (None = @None translations -> (exists m, FileUnreadable "denied" = FileUnreadable m) ->
     start_menu lenv None (FileUnreadable "denied") ∅ s (Ok None) (Some (mk_tg_user 8 None))
       = Ok (MenuAnswer "Main Menu"
               (user_menu "📸 Upload New Photo" "🎟 View My Lottery Tickets" "⬅️ Back to Menu")) /\
     forall row b,
       In row (user_menu "📸 Upload New Photo" "🎟 View My Lottery Tickets" "⬅️ Back to Menu") ->
       In b row -> route_text b = None)).
Proof.
  intros lenv s.
  assert (Hl : raises_only_exceptions lenv)
    by (split; [intros e [=] | intros ch m e [=]]).
  assert (Hs : forall e, (Ok None : result (option string)) = Err e -> is_exception e = true)
    by (intros e [=]).
  split; [exact Hl|]. split; [exact Hs|].
  exact (start_menu_replies lenv None (FileUnreadable "denied") ∅ s (Ok None)
           (mk_tg_user 8 None) Hl Hs).
Defined.

(** ** Starting an upload *)

(** X25: with a logger that raises only [Exception]s, [start_photo_upload]
    puts the sender's chat into the waiting-for-photo state, whatever state
    it was in, and answers either the instructions with a one-button back
    menu or its error text; the state is set before the texts are looked
    up, so when the translations cannot be read the chat waits for a photo
    although the user was told the upload could not start.  Without a
    sender nothing changes. *)
Theorem start_photo_upload_sets_state lenv cache f user_languages log_channel_id u st :
  raises_only_exceptions lenv ->
  start_photo_upload lenv cache f user_languages log_channel_id None st = (st, Ok MenuSilent) /\
  fst (start_photo_upload lenv cache f user_languages log_channel_id (Some u) st) = WaitingForPhoto /\
  (exists text kb,
     snd (start_photo_upload lenv cache f user_languages log_channel_id (Some u) st)
       = Ok (MenuAnswer text kb) /\
     ((text = "Error starting photo upload" /\ kb = []) \/ exists b, kb = back_menu b)) /\
  (cache = None -> (exists m, f = FileUnreadable m) ->
     snd (start_photo_upload lenv cache f user_languages log_channel_id (Some u) st)
       = Ok (MenuAnswer "Error starting photo upload" [])).
Proof.
  intros Hl. split; [reflexivity|].
  unfold start_photo_upload. rewrite log_user_action_ok by exact Hl. cbv zeta.
  split; [reflexivity|]. split.
  - cbn [snd]. settle_get_text; eexists _, _; (split; [reflexivity|]); eauto.
  - intros -> [m ->]. reflexivity.
Qed.

Lemma start_photo_upload_sets_state_witness :
  let lenv := mk_log_env (Err (OtherError "clock")) (fun _ _ => Ok tt) in
  raises_only_exceptions lenv /\
  (start_photo_upload lenv None (FileUnreadable "denied") ∅ None None NoFsmState
     = (NoFsmState, Ok MenuSilent) /\
   fst (start_photo_upload lenv None (FileUnreadable "denied") ∅ None (Some (mk_tg_user 8 None))
          NoFsmState) = WaitingForPhoto /\
   (exists text kb,
      snd (start_photo_upload lenv None (FileUnreadable "denied") ∅ None (Some (mk_tg_user 8 None))
             NoFsmState) = Ok (MenuAnswer text kb) /\
      ((text = "Error starting photo upload" /\ kb = []) \/ exists b, kb = back_menu b)) /\
   (None = @None translations -> (exists m, FileUnreadable "denied" = FileUnreadable m) ->
      snd (start_photo_upload lenv None (FileUnreadable "denied") ∅ None (Some (mk_tg_user 8 None))
             NoFsmState) = Ok (MenuAnswer "Error starting photo upload" []))).
Proof.
  intros lenv.
  assert (Hl : raises_only_exceptions lenv)
    by (split; [intros e [= <-]; reflexivity | intros ch m e [=]]).
  split; [exact Hl|].
  exact (start_photo_upload_sets_state lenv None (FileUnreadable "denied") ∅ None
           (mk_tg_user 8 None) NoFsmState Hl).
Defined.

(** ** Inline queries *)





(** ** Available languages *)

Lemma map_fst_fmap (L : list (string * gmap string string)) : map fst L = fst <$> L.
Proof. induction L as [|p L IH]; simpl; [reflexivity | by rewrite IH]. Qed.

(** X27: [is_language_available] says yes exactly for the languages
    [get_available_languages] lists, which are listed once each; and the
    two fail together, with the same error, when the translations cannot
    be loaded. *)
Theorem available_languages_agree cache f l :
  (is_language_available cache f l = Ok true <->
   exists ls, get_available_languages cache f = Ok ls /\ In l ls) /\
  (forall ls, get_available_languages cache f = Ok ls -> NoDup ls) /\
  (forall e, get_available_languages cache f = Err e <-> is_language_available cache f l = Err e).
Proof.
  unfold is_language_available, get_available_languages.
  destruct (load_translations cache f) as [tr|e]; cbn [bind].
  - split; [|split].
    + split.
      * intros [= Hb]. apply bool_decide_eq_true in Hb as [x Hx].
        eexists. split; [reflexivity|]. apply in_map_iff. exists (l, x). split; [reflexivity|].
        apply list_elem_of_In, elem_of_map_to_list, Hx.
      * intros [ls [[= <-] Hin]]. apply in_map_iff in Hin as [[i x] [Hi Hp]].
        simpl in Hi. subst i. apply list_elem_of_In, elem_of_map_to_list in Hp.
        f_equal. apply bool_decide_eq_true. exists x. exact Hp.
    + intros ls [= <-]. rewrite map_fst_fmap. apply NoDup_fst_map_to_list.
    + intros e. split; discriminate.
  - split; [|split].
    + split; [discriminate | intros [ls [? _]]; discriminate].
    + intros ls [=].
    + intros e'. split; intros [= <-]; reflexivity.
Qed.
